(** * puppini-bridge: a shallow embedding of the three utilities

    - [load_csv_to_duckdb]           (src/load_data_duckdb.py), the Schema Loader;
    - [infer_schemas_and_generate_puppini_bridge_sql] and
      [generate_puppini_bridge_sql]  (src/infer_schemas.py), the Bridge Synthesizer;
    - [generate_mermaid_erd]         (src/erd.py), the Diagram Generator: its
      rendering pass, and in module [Erd] the whole function (connection and
      catalog queries) with the entry point [Erd.main].

    Python code that logs, touches the file system or talks to DuckDB is
    written in a state-and-exception monad [M] over a [world]; Python's
    insertion-ordered [dict] is an association list updated in place. *)

From stdpp Require Import base strings list gmap.

Local Open Scope string_scope.
Local Open Scope list_scope.
Local Open Scope stdpp_scope.

(** ** Python values *)

(** The double quote character, for f-strings that contain one. *)
Definition dquote : string := String (Ascii.ascii_of_nat 34) EmptyString.

(** Text made of ASCII characters only (a string is the sequence of the
    bytes of its UTF-8 encoding). *)
Fixpoint is_ascii (s : string) : bool :=
  match s with
  | EmptyString => true
  | String c s' => (Ascii.nat_of_ascii c <? 128)%nat && is_ascii s'
  end.

(** The character [c] replaced by the one that stands in [to] where [c]
    stands in [from]; kept, when it does not occur in [from]. *)
Fixpoint translate (from to : string) (c : Ascii.ascii) : Ascii.ascii :=
  match from, to with
  | String f from', String t to' => if Ascii.eqb c f then t else translate from' to' c
  | _, _ => c
  end.

(** The letters [A] to [Z] replaced by [a] to [z], every other character
    kept. *)
Definition ascii_lower (c : Ascii.ascii) : Ascii.ascii :=
  translate "ABCDEFGHIJKLMNOPQRSTUVWXYZ" "abcdefghijklmnopqrstuvwxyz" c.

Fixpoint ascii_lowercase (s : string) : string :=
  match s with
  | EmptyString => EmptyString
  | String c s' => String (ascii_lower c) (ascii_lowercase s')
  end.

(** [str.lower] is Python's own, driven by the Unicode case tables: the
    functions that call it take it as the parameter [str_lower].  What is
    assumed of it, where a statement needs the lowercased text itself, is
    its effect on ASCII text (the type names DuckDB prints, [INTEGER],
    [VARCHAR], [DECIMAL(10,2)], ..., are ASCII). *)
Definition lowers_ascii (str_lower : string -> string) : Prop :=
  forall s, is_ascii s = true -> str_lower s = ascii_lowercase s.

Definition newline : string := String (Ascii.ascii_of_nat 10) EmptyString.

(** [needle in haystack] for strings, as a proposition. *)
Definition contains (needle haystack : string) : Prop :=
  exists before after, haystack = before +:+ needle +:+ after.

Module PyDict.

(** A [dict] keeps its keys in insertion order; assigning to a key that is
    present replaces the value and leaves the key where it is. *)
Definition dict (K V : Type) : Type := list (K * V).

Definition keys {K V} (d : dict K V) : list K := fst <$> d.

Definition items {K V} (d : dict K V) : list (K * V) := d.

Fixpoint getitem {K V} `{EqDecision K} (d : dict K V) (k : K) : option V :=
  match d with
  | [] => None
  | (k', v) :: d' => if decide (k = k') then Some v else getitem d' k
  end.

(** [k in d] *)
Definition mem {K V} `{EqDecision K} (d : dict K V) (k : K) : bool :=
  bool_decide (is_Some (getitem d k)).

(** [d[k] = v] *)
Fixpoint setitem {K V} `{EqDecision K} (d : dict K V) (k : K) (v : V) : dict K V :=
  match d with
  | [] => [(k, v)]
  | (k', v') :: d' =>
      if decide (k = k') then (k', v) :: d' else (k', v') :: setitem d' k v
  end.

(** [{key(x): value(x) for x in xs}] *)
Definition comprehension {A K V} `{EqDecision K}
    (key : A -> K) (value : A -> V) (xs : list A) : dict K V :=
  foldl (fun d x => setitem d (key x) (value x)) [] xs.

(** The keys of a [dict] are pairwise distinct. *)
Definition wf {K V} (d : dict K V) : Prop := NoDup (keys d).

End PyDict.

Import PyDict.

(** ** The world: file system, DuckDB databases, log sink *)

(** A table's columns, in ordinal order: (name, declared type). *)
Abbreviation columns_t := (list (string * string)).

(** A DuckDB database: the tables of its [main] schema.  Table names are
    matched as written. *)
Abbreviation database := (gmap string columns_t).

(** What a path of the file system holds.  A CSV file is abstracted to the
    columns [read_csv_auto] infers from its content. *)
Inductive file : Type :=
| CsvFile (inferred : columns_t)
| DuckDBFile (db : database).

Inductive level : Type := INFO | WARNING | ERROR.

(** A handle returned by [duckdb.connect]: to the database file at a path,
    or to the n-th in-memory database of the process. *)
Inductive connection : Type :=
| FileCon (path : string)
| MemCon (n : nat).

(** Calls made to the DuckDB engine, in order. *)
Inductive event : Type :=
| Connect (database_path : string) (read_only : bool)
| Execute (con : connection) (query : string).

Record world : Type := World {
  fs : gmap string file;
  memdb : list database;
  log : list (level * string);
  journal : list event
}.

Inductive exn : Type :=
| FileNotFoundError (msg : string)
| IndexError (msg : string)
| CatalogException (msg : string)
| IOException (msg : string)
| ConnectionException (msg : string)
| KeyError (key : string).

(** ** The monad of Python statements *)

Definition M (A : Type) : Type := world -> (exn + A) * world.

Definition ret {A} (x : A) : M A := fun w => (inr x, w).

Definition raise {A} (e : exn) : M A := fun w => (inl e, w).

Definition bind {A B} (c : M A) (k : A -> M B) : M B :=
  fun w =>
    match c w with
    | (inl e, w') => (inl e, w')
    | (inr x, w') => k x w'
    end.

Declare Scope py_scope.
Delimit Scope py_scope with py.
Notation "x <- c ;; k" := (bind c (fun x => k))
  (at level 100, c at next level, right associativity) : py_scope.
Notation "c ;; k" := (bind c (fun _ => k))
  (at level 100, right associativity) : py_scope.
Local Open Scope py_scope.

(** [for x in xs: acc = body(acc, x)], the loop state threaded through. *)
Fixpoint for_in {A S} (xs : list A) (body : S -> A -> M S) (acc : S) : M S :=
  match xs with
  | [] => ret acc
  | x :: xs' => acc' <- body acc x ;; for_in xs' body acc'
  end.

Definition logger (lvl : level) (msg : string) : M unit :=
  fun w => (inr tt, World (fs w) (memdb w) (log w ++ [(lvl, msg)]) (journal w)).

Definition logger_info := logger INFO.
Definition logger_warning := logger WARNING.
Definition logger_error := logger ERROR.

(** [Path(p).exists()] *)
Definition path_exists (p : string) : M bool :=
  fun w => (inr (bool_decide (is_Some (fs w !! p))), w).

(** ** Bridge Synthesizer: SQL generation (src/infer_schemas.py) *)

(** [xs[0]] *)
Definition list_getitem_0 {A} (xs : list A) : M A :=
  match xs with
  | [] => raise (IndexError "list index out of range")
  | x :: _ => ret x
  end.

Definition select_query_text (primary_key table_name : string) : string :=
  "SELECT CAST(" +:+ primary_key +:+ " AS VARCHAR) AS _KEY_" +:+ table_name
    +:+ ", '" +:+ table_name +:+ "' AS Stage FROM " +:+ table_name.

(** One iteration of [for table_name, columns in schemas.items()]. *)
Definition bridge_step (union_queries : list string)
    (item : string * dict string string) : M (list string) :=
  let '(table_name, columns) := item in
  logger_info ("Generating SELECT query for table '" +:+ table_name +:+ "'...") ;;
  primary_key <- list_getitem_0 (keys columns) ;;
  let select_query := select_query_text primary_key table_name in
  let union_queries := union_queries ++ [select_query] in
  logger_info ("Generated SELECT query: " +:+ select_query) ;;
  ret union_queries.

Definition generate_puppini_bridge_sql
    (schemas : dict string (dict string string)) : M string :=
  union_queries <- for_in (items schemas) bridge_step [] ;;
  let union_all_query := String.concat " UNION ALL " union_queries in
  logger_info ("Generated UNION ALL query: " +:+ union_all_query) ;;
  let create_table_query :=
    "CREATE OR REPLACE TABLE puppini_bridge AS " +:+ union_all_query in
  logger_info ("Generated Puppini Bridge SQL: " +:+ create_table_query) ;;
  ret create_table_query.

(** ** The DuckDB engine, as far as the utilities use it *)

Definition record_event (e : event) : M unit :=
  fun w => (inr tt, World (fs w) (memdb w) (log w) (journal w ++ [e])).

(** [duckdb.connect(database=database_path, read_only=read_only)]:
    [":memory:"] opens a fresh in-memory database; a path that holds nothing
    gets a new, empty database file unless the connection is read-only. *)
Definition duckdb_connect (database_path : string) (read_only : bool) : M connection :=
  record_event (Connect database_path read_only) ;;
  fun w =>
    if decide (database_path = ":memory:") then
      if read_only then
        (inl (ConnectionException "Cannot launch in-memory database in read-only mode"), w)
      else
        (inr (MemCon (length (memdb w))),
         World (fs w) (memdb w ++ [∅]) (log w) (journal w))
    else
      match fs w !! database_path with
      | Some (DuckDBFile _) => (inr (FileCon database_path), w)
      | Some (CsvFile _) =>
          (inl (IOException "The file is not a valid DuckDB database file"), w)
      | None =>
          if read_only then
            (inl (IOException "Cannot open database in read-only mode: it does not exist"), w)
          else
            (inr (FileCon database_path),
             World (<[database_path := DuckDBFile ∅]> (fs w)) (memdb w) (log w) (journal w))
      end.

(** The database a connection points at. *)
Definition database_of (con : connection) (w : world) : option database :=
  match con with
  | FileCon path =>
      match fs w !! path with
      | Some (DuckDBFile db) => Some db
      | _ => None
      end
  | MemCon n => memdb w !! n
  end.

Definition set_database (con : connection) (db : database) (w : world) : world :=
  match con with
  | FileCon path => World (<[path := DuckDBFile db]> (fs w)) (memdb w) (log w) (journal w)
  | MemCon n => World (fs w) (<[n := db]> (memdb w)) (log w) (journal w)
  end.

(** The two statements the utilities send through [con.execute]. *)
Inductive statement : Type :=
| CreateTableAsReadCsvAuto (table_name csv_path : string)
| PragmaTableInfo (table : string).

(** The text of a statement, as the f-strings of the source build it. *)
Definition sql_text (q : statement) : string :=
  match q with
  | CreateTableAsReadCsvAuto table_name csv_path =>
      "CREATE TABLE " +:+ table_name +:+ " AS SELECT * FROM read_csv_auto('"
        +:+ csv_path +:+ "')"
  | PragmaTableInfo table => "PRAGMA table_info(" +:+ table +:+ ")"
  end.

(** A row of [PRAGMA table_info]: (cid, name, type, notnull, dflt_value, pk). *)
Definition table_info_row : Type := nat * string * string * bool * option string * bool.

Definition col_1 (col : table_info_row) : string :=
  let '(_, name, _, _, _, _) := col in name.

Definition col_2 (col : table_info_row) : string :=
  let '(_, _, type, _, _, _) := col in type.

Definition table_info (columns : columns_t) : list table_info_row :=
  imap (fun cid c => (cid, c.1, c.2, false, None, false)) columns.

(** What a statement does to a database: plain [CREATE TABLE] (no
    [OR REPLACE], no [IF NOT EXISTS]) fails on a table that is there. *)
Definition run_statement (q : statement) (files : gmap string file) (db : database)
    : exn + (database * list table_info_row) :=
  match q with
  | CreateTableAsReadCsvAuto table_name csv_path =>
      match files !! csv_path with
      | Some (CsvFile inferred) =>
          match db !! table_name with
          | Some _ =>
              inl (CatalogException
                     ("Table with name " +:+ dquote +:+ table_name +:+ dquote
                        +:+ " already exists!"))
          | None => inr (<[table_name := inferred]> db, [])
          end
      | _ => inl (IOException ("No CSV file at " +:+ dquote +:+ csv_path +:+ dquote))
      end
  | PragmaTableInfo table =>
      match db !! table with
      | Some columns => inr (db, table_info columns)
      | None =>
          inl (CatalogException
                 ("Table with name " +:+ table +:+ " does not exist!"))
      end
  end.

(** [con.execute(query).fetchall()] *)
Definition con_execute (con : connection) (q : statement) : M (list table_info_row) :=
  record_event (Execute con (sql_text q)) ;;
  fun w =>
    match database_of con w with
    | None => (inl (ConnectionException "Connection has no database"), w)
    | Some db =>
        match run_statement q (fs w) db with
        | inl e => (inl e, w)
        | inr (db', rows) => (inr rows, set_database con db' w)
        end
    end.

(** ** Schema Loader (src/load_data_duckdb.py) *)

(** One iteration of [for table_name, csv_path in csv_files.items()]. *)
Definition load_step (con : connection) (_ : unit) (item : string * string) : M unit :=
  let '(table_name, csv_path) := item in
  present <- path_exists csv_path ;;
  if negb present then
    logger_error ("CSV file '" +:+ csv_path +:+ "' does not exist. Skipping table '"
                    +:+ table_name +:+ "'.")
  else
    logger_info ("Loading CSV file '" +:+ csv_path +:+ "' into DuckDB table '"
                   +:+ table_name +:+ "'...") ;;
    let query := CreateTableAsReadCsvAuto table_name csv_path in
    con_execute con query ;;
    logger_info ("Table '" +:+ table_name +:+ "' created successfully.").

Definition load_csv_to_duckdb (csv_files : dict string string) (force : bool)
    (database_path : string) : M connection :=
  logger_info ("Connecting to DuckDB database at '" +:+ database_path +:+ "'...") ;;
  present <- path_exists database_path ;;
  if present && negb force then
    logger_warning ("DuckDB database '" +:+ database_path
                      +:+ "' already exists. Connecting to existing. Use 'force=True' to overwrite.") ;;
    duckdb_connect database_path false
  else
    con <- duckdb_connect database_path false ;;
    for_in (items csv_files) (load_step con) tt ;;
    ret con.

(** ** Bridge Synthesizer: schema inference (src/infer_schemas.py) *)

(** One iteration of [for table in tables]. *)
Definition infer_step (con : connection) (schemas : dict string (dict string string))
    (table : string) : M (dict string (dict string string)) :=
  let schema_query := PragmaTableInfo table in
  columns <- con_execute con schema_query ;;
  ret (setitem schemas table (comprehension col_1 col_2 columns)).

Definition infer_schemas_and_generate_puppini_bridge_sql
    (tables : list string) (database_path : string)
    : M (connection * dict string (dict string string)) :=
  present <- path_exists database_path ;;
  (if negb present then
     raise (FileNotFoundError ("Database file '" +:+ database_path +:+ "' does not exist!"))
   else
     logger_info ("Database file '" +:+ database_path +:+ "' exists.")) ;;
  logger_info ("Connecting to DuckDB database at '" +:+ database_path +:+ "'...") ;;
  con <- duckdb_connect database_path false ;;
  schemas <- for_in tables (infer_step con) [] ;;
  ret (con, schemas).

(** ** Diagram Generator (src/erd.py) *)

(** [tables[table].append(x)] *)
Definition list_append_at (tables : dict string (list string)) (table x : string)
    : M (dict string (list string)) :=
  match getitem tables table with
  | Some lines => ret (setitem tables table (lines ++ [x]))
  | None => raise (KeyError table)
  end.

(** One iteration of [for table, column, data_type in table_columns]. *)
Definition erd_group_step (str_lower : string -> string)
    (tables : dict string (list string))
    (row : string * string * string) : M (dict string (list string)) :=
  let '(table, column, data_type) := row in
  let tables := if negb (mem tables table) then setitem tables table [] else tables in
  list_append_at tables table (str_lower data_type +:+ " " +:+ column).

(** One iteration of [for table, columns in tables.items()]. *)
Definition erd_block_step (mermaid_diagram : list string)
    (item : string * list string) : M (list string) :=
  let '(table, columns) := item in
  let mermaid_diagram := mermaid_diagram ++ ["  " +:+ table +:+ " {"] in
  let mermaid_diagram := mermaid_diagram ++ ((fun col => "    " +:+ col) <$> columns) in
  ret (mermaid_diagram ++ ["  }"]).

(** One iteration of
    [for from_table, from_column, to_table, to_column in foreign_keys]. *)
Definition erd_relationship_step (mermaid_diagram : list string)
    (fk : string * string * string * string) : M (list string) :=
  let '(from_table, from_column, to_table, to_column) := fk in
  ret (mermaid_diagram ++
         ["  " +:+ from_table +:+ " }o--o{ " +:+ to_table +:+ " : " +:+ dquote
            +:+ from_column +:+ " -> " +:+ to_column +:+ dquote]).

(** The rendering pass of [generate_mermaid_erd].  The rows of its two
    catalog queries ([con.execute(...).fetchall()] over [information_schema])
    are the parameters [table_columns] and [foreign_keys]; [str_lower] is
    Python's [str.lower], called as [data_type.lower()]. *)
Definition generate_mermaid_erd (str_lower : string -> string)
    (table_columns : list (string * string * string))
    (foreign_keys : list (string * string * string * string)) : M string :=
  let mermaid_diagram := ["erDiagram"] in
  logger_info "Adding tables and columns to the diagram..." ;;
  tables <- for_in table_columns (erd_group_step str_lower) [] ;;
  mermaid_diagram <- for_in (items tables) erd_block_step mermaid_diagram ;;
  logger_info "Adding relationships to the diagram..." ;;
  mermaid_diagram <- for_in foreign_keys erd_relationship_step mermaid_diagram ;;
  ret (String.concat newline mermaid_diagram).

(** ** Diagram Generator: connection, catalog queries, entry point (src/erd.py) *)

(** What the process leaves outside DuckDB: the text files it wrote (a
    path written here shadows what [fs] holds there) and the lines it
    printed. *)
Record outputs : Type := Outputs {
  text_files : gmap string string;
  stdout : list string
}.

(** Statements that may also print or write a text file. *)
Definition MX (A : Type) : Type := world * outputs -> (exn + A) * (world * outputs).

Definition xret {A} (x : A) : MX A := fun s => (inr x, s).

Definition xbind {A B} (c : MX A) (k : A -> MX B) : MX B :=
  fun s =>
    match c s with
    | (inl e, s') => (inl e, s')
    | (inr x, s') => k x s'
    end.

(** A statement of [M], run on the world and leaving the outputs alone. *)
Definition lift {A} (c : M A) : MX A :=
  fun s => ((c s.1).1, ((c s.1).2, s.2)).

(** [print(text)] *)
Definition py_print (text : string) : MX unit :=
  fun s => (inr tt, (s.1, Outputs (text_files s.2) (stdout s.2 ++ [text]))).

(** [Path(path).write_text(content)] *)
Definition write_text (path content : string) : MX unit :=
  fun s => (inr tt, (s.1, Outputs (<[path := content]> (text_files s.2)) (stdout s.2))).

(** [Path(p).exists()], text files included. *)
Definition xpath_exists (p : string) : MX bool :=
  fun s =>
    (inr (bool_decide (is_Some (fs s.1 !! p)) || bool_decide (is_Some (text_files s.2 !! p))),
     s).

Declare Scope pyx_scope.
Delimit Scope pyx_scope with pyx.
Notation "x <- c ;; k" := (xbind c (fun x => k))
  (at level 100, c at next level, right associativity) : pyx_scope.
Notation "c ;; k" := (xbind c (fun _ => k))
  (at level 100, right associativity) : pyx_scope.

Module Erd.

Definition DATABASE_PATH : string := "data/sales.duckdb".

Definition table_columns_query : string := "
        SELECT 
            table_name, 
            column_name, 
            data_type 
        FROM information_schema.columns
        WHERE table_schema = 'main'
        ORDER BY table_name, ordinal_position;
    ".

Definition foreign_keys_query : string := "
        SELECT 
            fk_table.table_name AS from_table,
            fk_column.column_name AS from_column,
            pk_table.table_name AS to_table,
            pk_column.column_name AS to_column
        FROM information_schema.referential_constraints rc
        JOIN information_schema.key_column_usage fk_column
            ON rc.constraint_name = fk_column.constraint_name
        JOIN information_schema.table_constraints fk_table
            ON fk_column.table_name = fk_table.table_name AND fk_table.constraint_type = 'FOREIGN KEY'
        JOIN information_schema.key_column_usage pk_column
            ON rc.unique_constraint_name = pk_column.constraint_name
        JOIN information_schema.table_constraints pk_table
            ON pk_column.table_name = pk_table.table_name AND pk_table.constraint_type = 'PRIMARY KEY'
        WHERE fk_table.table_schema = 'main' AND pk_table.table_schema = 'main';
    ".

Section catalog.

(** Python's [str.lower]. *)
Variable str_lower : string -> string.

(** The rows DuckDB answers the two catalog queries with, on a database. *)
Variable information_schema_columns : database -> list (string * string * string).
Variable foreign_key_rows : database -> list (string * string * string * string).

(** [con.execute(query).fetchall()] for a catalog query: it reads the
    database and changes nothing. *)
Definition con_execute_catalog {A} (con : connection) (query : string)
    (answer : database -> list A) : M (list A) :=
  record_event (Execute con query) ;;
  fun w =>
    match database_of con w with
    | None => (inl (ConnectionException "Connection has no database"), w)
    | Some db => (inr (answer db), w)
    end.

(** [generate_mermaid_erd(database_path)]: connect read-only, run the two
    catalog queries, render (the last line is the rendering pass defined
    above, outside this module). *)
Definition generate_mermaid_erd (database_path : string) : M string :=
  logger_info ("Connecting to DuckDB database at '" +:+ database_path +:+ "'...") ;;
  con <- duckdb_connect database_path true ;;
  logger_info "Fetching table and column metadata..." ;;
  table_columns <- con_execute_catalog con table_columns_query information_schema_columns ;;
  logger_info "Fetching foreign key relationships..." ;;
  foreign_keys <- con_execute_catalog con foreign_keys_query foreign_key_rows ;;
  generate_mermaid_erd str_lower table_columns foreign_keys.

Definition main : MX unit :=
  (present <- xpath_exists DATABASE_PATH ;;
   if negb present then
     lift (logger_error ("DuckDB database file '" +:+ DATABASE_PATH +:+ "' does not exist."))
   else
     lift (logger_info "Generating Mermaid ERD...") ;;
     erd_diagram <- lift (generate_mermaid_erd DATABASE_PATH) ;;
     let output_file := "er-diagram.mermaid" in
     write_text output_file erd_diagram ;;
     lift (logger_info ("Mermaid ERD saved to '" +:+ output_file +:+ "'.")) ;;
     py_print (newline +:+ "Generated Mermaid ERD:") ;;
     py_print erd_diagram)%pyx.

End catalog.

End Erd.

(** ** Reading a run *)

(** What a statement returned or raised. *)
Definition outcome {A} (c : M A) (w : world) : exn + A := (c w).1.

(** Two worlds that differ in the log at most. *)
Definition same_state (w1 w2 : world) : Prop :=
  fs w1 = fs w2 /\ memdb w1 = memdb w2 /\ journal w1 = journal w2.

(** A statement that never reads the log: from worlds that agree up to the
    log it returns the same and leaves worlds that agree up to the log. *)
Definition log_blind {A} (c : M A) : Prop :=
  forall w1 w2, same_state w1 w2 ->
    (c w1).1 = (c w2).1 /\ same_state (c w1).2 (c w2).2.

(** A statement that touches nothing but the log, to which it appends INFO
    lines only. *)
Definition only_logs_info {A} (c : M A) : Prop :=
  forall w,
    fs (c w).2 = fs w /\ memdb (c w).2 = memdb w /\ journal (c w).2 = journal w
    /\ exists lines,
         log (c w).2 = log w ++ lines /\ Forall (fun entry => entry.1 = INFO) lines.

(** A statement that changes no file and no database. *)
Definition read_only {A} (c : M A) : Prop :=
  forall w, fs (c w).2 = fs w /\ memdb (c w).2 = memdb w.

(** A statement that, run where [path] holds a database, leaves a database
    there with every table it had (same columns), and changes no other file
    and no in-memory database. *)
Definition keeps_database (path : string) {A} (c : M A) : Prop :=
  forall w db,
    fs w !! path = Some (DuckDBFile db) ->
    exists db',
      fs (c w).2 !! path = Some (DuckDBFile db')
      /\ db ⊆ db'
      /\ (forall p, p <> path -> fs (c w).2 !! p = fs w !! p)
      /\ memdb (c w).2 = memdb w.

(** ** Functions the statements below are phrased with *)

(** The columns a mapping gives [table]: those inferred from the file its
    entry points at, when that file is a CSV file. *)
Definition loaded_columns (csv_files : dict string string) (files : gmap string file)
    (table : string) : option columns_t :=
  match getitem csv_files table with
  | Some csv_path =>
      match files !! csv_path with
      | Some (CsvFile inferred) => Some inferred
      | _ => None
      end
  | None => None
  end.

(** The distinct elements of a list, each at its first occurrence. *)
Fixpoint first_seen (xs : list string) : list string :=
  match xs with
  | [] => []
  | x :: xs' => x :: filter (fun y => y <> x) (first_seen xs')
  end.

(** The SELECT of one schema entry, when its table has a first column. *)
Definition bridge_branch (item : string * dict string string) : option string :=
  match keys item.2 with
  | [] => None
  | primary_key :: _ => Some (select_query_text primary_key item.1)
  end.

(** *** Names and paths the engine reads as they are written

    The loader and schema inference paste table names into SQL text as they
    are, and the loader pastes paths between single quotes; DuckDB parses
    that text and resolves names without regard to case.  What a statement
    below says the engine does with a name or a path, it says of plain
    ones: text that reads as one name, or as one path, and that nothing
    else in a database can be confused with. *)

(** [c in s] for a character. *)
Fixpoint occurs (c : Ascii.ascii) (s : string) : bool :=
  match s with
  | EmptyString => false
  | String c' s' => Ascii.eqb c c' || occurs c s'
  end.

(** Every character of [s] occurs in [chars]. *)
Fixpoint made_of (chars s : string) : bool :=
  match s with
  | EmptyString => true
  | String c s' => occurs c chars && made_of chars s'
  end.

Definition name_chars : string := "abcdefghijklmnopqrstuvwxyz0123456789_".

(** A table name in the repository's naming scheme ([fact_sales],
    [dim_product], ...): the prefix [fact_] or [dim_], then lower-case
    letters, digits and underscores.  No SQL keyword and no built-in catalog
    object has such a name, and two of them that differ are different
    tables. *)
Definition plain_table_name (name : string) : Prop :=
  (String.prefix "fact_" name || String.prefix "dim_" name) && made_of name_chars name
  = true.

#[global] Instance plain_table_name_dec name : Decision (plain_table_name name) :=
  bool_eq_dec _ _.

(** A relative path to a [.csv] file: directory names and a file name made
    of lower-case letters, digits and underscores, one [/] between them. *)
Definition plain_csv_path (path : string) : Prop :=
  exists segments,
    path = String.concat "/" segments +:+ ".csv"
    /\ segments <> []
    /\ Forall (fun segment => segment <> "" /\ made_of name_chars segment = true) segments.

(** A [.duckdb] file in the working directory, named likewise. *)
Definition plain_database_path (path : string) : Prop :=
  exists stem,
    path = stem +:+ ".duckdb" /\ stem <> "" /\ made_of name_chars stem = true.

(** A mapping of plain table names to plain paths. *)
Definition plain_mapping (csv_files : dict string string) : Prop :=
  Forall (fun item => plain_table_name item.1 /\ plain_csv_path item.2) (items csv_files).

(** A database whose tables have plain names. *)
Definition plain_database (db : database) : Prop :=
  map_Forall (fun table _ => plain_table_name table) db.

(** The lines of the columns of [table], in the order of the column
    listing: the lowercased type, a space, the column name. *)
Definition erd_column_lines (str_lower : string -> string)
    (table_columns : list (string * string * string))
    (table : string) : list string :=
  (fun row => str_lower row.2 +:+ " " +:+ row.1.2)
    <$> filter (fun row => row.1.1 = table) table_columns.

(** The block of [table]: header line, one indented line per column,
    closing line. *)
Definition erd_table_block (str_lower : string -> string)
    (table_columns : list (string * string * string))
    (table : string) : list string :=
  ["  " +:+ table +:+ " {"]
    ++ ((fun row => "    " +:+ str_lower row.2 +:+ " " +:+ row.1.2)
          <$> filter (fun row => row.1.1 = table) table_columns)
    ++ ["  }"].

(** The line of a foreign key (from_table, from_column, to_table, to_column). *)
Definition erd_relationship_line (fk : string * string * string * string) : string :=
  "  " +:+ fk.1.1.1 +:+ " }o--o{ " +:+ fk.1.2 +:+ " : " +:+ dquote
    +:+ fk.1.1.2 +:+ " -> " +:+ fk.2 +:+ dquote.


(** ** Sample data *)

(** A process that has just started, on an empty file system. *)
Definition fresh_world : world := World ∅ [] [] [].

(** The schema map of the spec's scenario for the Bridge Synthesizer. *)
Definition dim_product_schemas : dict string (dict string string) :=
  [("dim_product", [("product_id", "INTEGER"); ("name", "VARCHAR")])].

(** The sales database: two tables. *)
Definition sales_database : database :=
  <["fact_sales" := [("sale_id", "INTEGER"); ("product_id", "INTEGER"); ("amount", "DOUBLE")]]>
    (<["dim_product" := [("product_id", "INTEGER"); ("name", "VARCHAR")]]> ∅).

(** A file system with one CSV file and the sales database. *)
Definition sales_world : world :=
  World
    (<["data/dim_store.csv" := CsvFile [("store_id", "BIGINT"); ("city", "VARCHAR")]]>
       (<["data/sales.duckdb" := DuckDBFile sales_database]> ∅))
    [] [] [].

(** A file system that holds one CSV file and no database yet. *)
Definition store_csv_world : world :=
  World
    (<["data/dim_store.csv" := CsvFile [("store_id", "BIGINT"); ("city", "VARCHAR")]]> ∅)
    [] [] [].

(** A schema map whose second table has no column. *)
Definition columnless_schemas : dict string (dict string string) :=
  [("fact_sales", [("sale_id", "INTEGER")]); ("staging", [])].

(** * Properties *)

(** ** The monad *)

Lemma bind_inr {A B} (c : M A) (k : A -> M B) w x w' :
  c w = (inr x, w') -> bind c k w = k x w'.
Proof. intros H. unfold bind. by rewrite H. Qed.

Lemma bind_inl {A B} (c : M A) (k : A -> M B) w e w' :
  c w = (inl e, w') -> bind c k w = (inl e, w').
Proof. intros H. unfold bind. by rewrite H. Qed.

Lemma bind_assoc {A B C} (c : M A) (k : A -> M B) (k' : B -> M C) w :
  bind (bind c k) k' w = bind c (fun x => bind (k x) k') w.
Proof. unfold bind. by destruct (c w) as [[e|x] w']. Qed.

Lemma for_in_cons {A S} (body : S -> A -> M S) x xs acc :
  for_in (x :: xs) body acc = bind (body acc x) (fun acc' => for_in xs body acc').
Proof. done. Qed.

Lemma for_in_ret {A S} (f : S -> A -> S) (body : S -> A -> M S) xs acc w :
  (forall acc x w, body acc x w = (inr (f acc x), w)) ->
  for_in xs body acc w = (inr (foldl f acc xs), w).
Proof.
  intros Hbody. revert acc. induction xs as [|x xs IH]; intros acc; [done|].
  simpl. by rewrite (bind_inr _ _ _ _ _ (Hbody acc x w)).
Qed.

Lemma bind_ext {A B} (c : M A) (k1 k2 : A -> M B) w :
  (forall x w', k1 x w' = k2 x w') -> bind c k1 w = bind c k2 w.
Proof. intros H. unfold bind. by destruct (c w) as [[e|x] w']. Qed.

Lemma for_in_app {A S} (body : S -> A -> M S) xs ys acc w :
  for_in (xs ++ ys) body acc w
  = bind (for_in xs body acc) (fun acc' => for_in ys body acc') w.
Proof.
  revert acc w. induction xs as [|x xs IH]; intros acc w; [done|].
  cbn [app]. rewrite !for_in_cons, bind_assoc.
  apply bind_ext. intros acc' w'. apply IH.
Qed.

(** ** Strings *)

Lemma append_assoc (a b c : string) : (a +:+ b) +:+ c = a +:+ b +:+ c.
Proof.
  induction a as [|ch a IH]; [done|].
  change (String ch ((a +:+ b) +:+ c) = String ch (a +:+ b +:+ c)).
  by rewrite IH.
Qed.

Lemma append_empty_r (a : string) : a +:+ "" = a.
Proof.
  induction a as [|ch a IH]; [done|].
  change (String ch (a +:+ "") = String ch a). by rewrite IH.
Qed.

Lemma contains_refl s : contains s s.
Proof. exists "", "". change (s = s +:+ ""). by rewrite append_empty_r. Qed.

Lemma contains_prepend p s t : contains s t -> contains s (p +:+ t).
Proof.
  intros (b & a & ->). exists (p +:+ b), a. by rewrite append_assoc.
Qed.

Lemma contains_append s t q : contains s t -> contains s (t +:+ q).
Proof.
  intros (b & a & ->). exists b, (a +:+ q). by rewrite !append_assoc.
Qed.

Lemma contains_concat sep x (l : list string) :
  x ∈ l -> contains x (String.concat sep l).
Proof.
  induction l as [|y l IH]; intros Hin; [by apply elem_of_nil in Hin|].
  apply elem_of_cons in Hin as [->|Hin].
  - destruct l; simpl; [apply contains_refl|].
    apply contains_append, contains_refl.
  - destruct l as [|z l]; [by apply elem_of_nil in Hin|].
    change (String.concat sep (y :: z :: l))
      with (y +:+ sep +:+ String.concat sep (z :: l)).
    by apply contains_prepend, contains_prepend, IH.
Qed.

(** ** Bridge SQL generation *)

Lemma bridge_step_some acc table columns primary_key rest w :
  keys columns = primary_key :: rest ->
  exists w',
    bridge_step acc (table, columns) w
    = (inr (acc ++ [select_query_text primary_key table]), w').
Proof.
  intros Hk. unfold bridge_step, bind, logger_info, logger. simpl.
  rewrite Hk. simpl. eauto.
Qed.

Lemma bridge_step_none acc table columns w :
  keys columns = [] ->
  exists w',
    bridge_step acc (table, columns) w
    = (inl (IndexError "list index out of range"), w').
Proof.
  intros Hk. unfold bridge_step, bind, logger_info, logger. simpl.
  rewrite Hk. simpl. eauto.
Qed.

Lemma bridge_branch_cons table columns items :
  mapM bridge_branch ((table, columns) :: items) =
    match keys columns with
    | [] => None
    | primary_key :: _ =>
        match mapM bridge_branch items with
        | Some selects => Some (select_query_text primary_key table :: selects)
        | None => None
        end
    end.
Proof.
  change (mapM bridge_branch ((table, columns) :: items))
    with (y ← bridge_branch (table, columns);
          k ← mapM bridge_branch items; mret (y :: k)).
  replace (bridge_branch (table, columns))
    with (match keys columns with
          | [] => None
          | primary_key :: _ => Some (select_query_text primary_key table)
          end) by done.
  destruct (keys columns); [done|]. simpl.
  by destruct (mapM bridge_branch items).
Qed.

(** The loop of [generate_puppini_bridge_sql] collects one SELECT per entry,
    in order, and stops at the first entry without a column. *)
Lemma bridge_loop_outcome items acc w :
  outcome (for_in items bridge_step acc) w =
    match mapM bridge_branch items with
    | Some selects => inr (acc ++ selects)
    | None => inl (IndexError "list index out of range")
    end.
Proof.
  revert acc w. induction items as [|[table columns] items IH]; intros acc w.
  - simpl. by rewrite app_nil_r.
  - unfold outcome in *. rewrite for_in_cons, bridge_branch_cons.
    destruct (keys columns) as [|primary_key rest] eqn:Hk.
    + destruct (bridge_step_none acc table columns w Hk) as [w' Hstep].
      by rewrite (bind_inl _ _ _ _ _ Hstep).
    + destruct (bridge_step_some acc table columns _ _ w Hk) as [w' Hstep].
      rewrite (bind_inr _ _ _ _ _ Hstep), IH.
      destruct (mapM bridge_branch items); [|done].
      by rewrite <- app_assoc.
Qed.

Lemma generate_puppini_bridge_sql_outcome schemas w :
  outcome (generate_puppini_bridge_sql schemas) w =
    match mapM bridge_branch schemas with
    | Some selects =>
        inr ("CREATE OR REPLACE TABLE puppini_bridge AS "
               +:+ String.concat " UNION ALL " selects)
    | None => inl (IndexError "list index out of range")
    end.
Proof.
  pose proof (bridge_loop_outcome (items schemas) [] w) as Hloop.
  unfold outcome, generate_puppini_bridge_sql, items in *.
  unfold bind at 1.
  destruct (for_in schemas bridge_step [] w) as [[e|qs] w'] eqn:Hrun;
    simpl in Hloop; destruct (mapM bridge_branch schemas) as [selects|];
    try discriminate Hloop.
  - by injection Hloop as ->.
  - injection Hloop as ->. reflexivity.
Qed.

(** C1: the bridge SQL that is generated for a schema map is
    [CREATE OR REPLACE TABLE puppini_bridge AS] followed by the per-table
    selections joined with [UNION ALL], one selection per table of the map,
    in the order of the map; the selection of a table casts its first column
    to VARCHAR under the name [_KEY_<table>] and carries the literal
    ['<table>' AS Stage FROM <table>]; each selection occurs in the SQL
    text.  The SQL is generated for every map whose tables all have a first
    column. *)
Theorem bridge_sql_union_of_key_selections
    (schemas : dict string (dict string string)) (w : world) :
  (forall sql,
     outcome (generate_puppini_bridge_sql schemas) w = inr sql ->
     exists selects,
       sql = "CREATE OR REPLACE TABLE puppini_bridge AS "
               +:+ String.concat " UNION ALL " selects
       /\ Forall2
            (fun item select =>
               exists first_column,
                 head (keys item.2) = Some first_column
                 /\ select = "SELECT CAST(" +:+ first_column +:+ " AS VARCHAR) AS _KEY_"
                               +:+ item.1 +:+ ", '" +:+ item.1 +:+ "' AS Stage FROM "
                               +:+ item.1)
            (items schemas) selects
       /\ Forall (fun select => contains select sql) selects)
  /\ (Forall (fun item => keys item.2 <> []) (items schemas) ->
      exists sql, outcome (generate_puppini_bridge_sql schemas) w = inr sql).
Proof.
  rewrite generate_puppini_bridge_sql_outcome. unfold items. split.
  - intros sql Hsql.
    destruct (mapM bridge_branch schemas) as [selects|] eqn:Hsel; [|done].
    injection Hsql as <-. exists selects. repeat split.
    + apply mapM_Some in Hsel. eapply Forall2_impl; [exact Hsel|].
      intros [table columns] select. unfold bridge_branch. simpl.
      destruct (keys columns) as [|first_column rest]; [done|].
      intros [= <-]. by exists first_column.
    + apply Forall_forall. intros select Hin.
      by apply contains_prepend, contains_concat.
  - intros Hcols.
    assert (is_Some (mapM bridge_branch schemas)) as [selects ->]; [|eauto].
    apply mapM_is_Some. eapply Forall_impl; [exact Hcols|].
    intros [table columns] Hne. unfold bridge_branch. simpl in *.
    destruct (keys columns); [done | eauto].
Qed.

Lemma bridge_sql_union_of_key_selections_witness :
  exists selects,
    "CREATE OR REPLACE TABLE puppini_bridge AS SELECT CAST(product_id AS VARCHAR) AS _KEY_dim_product, 'dim_product' AS Stage FROM dim_product"
    = "CREATE OR REPLACE TABLE puppini_bridge AS " +:+ String.concat " UNION ALL " selects
    /\ Forall2
         (fun item select =>
            exists first_column,
              head (keys item.2) = Some first_column
              /\ select = "SELECT CAST(" +:+ first_column +:+ " AS VARCHAR) AS _KEY_"
                            +:+ item.1 +:+ ", '" +:+ item.1 +:+ "' AS Stage FROM "
                            +:+ item.1)
         (items dim_product_schemas) selects
    /\ Forall
         (fun select =>
            contains select
              "CREATE OR REPLACE TABLE puppini_bridge AS SELECT CAST(product_id AS VARCHAR) AS _KEY_dim_product, 'dim_product' AS Stage FROM dim_product")
         selects.
Proof.
  apply (proj1 (bridge_sql_union_of_key_selections dim_product_schemas fresh_world)).
  vm_compute. reflexivity.
Defined.

(** The spec's scenario: for [dim_product(product_id, name)] the SQL is the
    single selection, wrapped. *)
Example bridge_sql_dim_product :
  outcome (generate_puppini_bridge_sql dim_product_schemas) fresh_world
  = inr ("CREATE OR REPLACE TABLE puppini_bridge AS SELECT CAST(product_id AS VARCHAR) "
           +:+ "AS _KEY_dim_product, 'dim_product' AS Stage FROM dim_product").
Proof. vm_compute. reflexivity. Qed.

(** C9: the SQL text returned for a schema map does not depend on the run:
    two runs on equal schema maps (same tables, same order, same columns),
    started in any two worlds, return the same string. *)
Theorem bridge_sql_deterministic
    (schemas1 schemas2 : dict string (dict string string)) (w1 w2 : world) :
  schemas1 = schemas2 ->
  outcome (generate_puppini_bridge_sql schemas1) w1
  = outcome (generate_puppini_bridge_sql schemas2) w2.
Proof.
  intros ->. by rewrite !generate_puppini_bridge_sql_outcome.
Qed.

Lemma bridge_sql_deterministic_witness :
  outcome (generate_puppini_bridge_sql dim_product_schemas) fresh_world
  = outcome (generate_puppini_bridge_sql dim_product_schemas)
      (World ∅ [] [(INFO, "earlier run")] []).
Proof.
  exact (bridge_sql_deterministic dim_product_schemas dim_product_schemas
           fresh_world (World ∅ [] [(INFO, "earlier run")] []) eq_refl).
Defined.

(** C10: a table with an empty column mapping makes [list(columns.keys())[0]]
    raise IndexError, so no SQL is produced; SQL is produced exactly when
    every table of the map has at least one column. *)
Theorem bridge_sql_needs_first_column
    (schemas : dict string (dict string string)) (w : world) :
  ((exists table, (table, []) ∈ items schemas) ->
   outcome (generate_puppini_bridge_sql schemas) w
   = inl (IndexError "list index out of range"))
  /\ ((exists sql, outcome (generate_puppini_bridge_sql schemas) w = inr sql)
      <-> Forall (fun item => item.2 <> []) (items schemas)).
Proof.
  rewrite generate_puppini_bridge_sql_outcome. unfold items.
  assert (forall item : string * dict string string,
            is_Some (bridge_branch item) <-> item.2 <> []) as Hbranch.
  { intros [table [|[c ty] columns]]; unfold bridge_branch; simpl.
    - split; [by intros [? ?] | done].
    - split; [done | eauto]. }
  split.
  - intros [table Hin].
    destruct (mapM bridge_branch schemas) as [selects|] eqn:Hsel; [|done].
    assert (is_Some (mapM bridge_branch schemas)) as Hall by eauto.
    apply mapM_is_Some in Hall.
    rewrite Forall_forall in Hall. apply Hall, Hbranch in Hin. done.
  - pose proof (Forall_iff _ schemas _ Hbranch) as Hiff.
    pose proof (mapM_is_Some bridge_branch schemas) as Hsome.
    destruct (mapM bridge_branch schemas) as [selects|]; split.
    + intros _. apply Hiff, Hsome. eauto.
    + eauto.
    + by intros [sql ?].
    + intros Hall. apply Hiff, Hsome in Hall. by destruct Hall.
Qed.

Lemma bridge_sql_needs_first_column_witness :
  outcome (generate_puppini_bridge_sql columnless_schemas) fresh_world
  = inl (IndexError "list index out of range").
Proof.
  apply (proj1 (bridge_sql_needs_first_column columnless_schemas fresh_world)).
  exists "staging". unfold items, columnless_schemas.
  apply elem_of_cons. right. apply elem_of_cons. by left.
Defined.

(** ** Schema Loader *)

Lemma path_exists_some p f w :
  fs w !! p = Some f -> path_exists p w = (inr true, w).
Proof.
  intros H. unfold path_exists. rewrite H.
  by rewrite bool_decide_eq_true_2 by eauto.
Qed.

Lemma path_exists_none p w :
  fs w !! p = None -> path_exists p w = (inr false, w).
Proof.
  intros H. unfold path_exists. rewrite H.
  by rewrite bool_decide_eq_false_2 by (by intros [? ?]).
Qed.

Lemma logger_run lvl msg w :
  logger lvl msg w
  = (inr tt, World (fs w) (memdb w) (log w ++ [(lvl, msg)]) (journal w)).
Proof. done. Qed.

Lemma duckdb_connect_memory w :
  duckdb_connect ":memory:" false w
  = (inr (MemCon (length (memdb w))),
     World (fs w) (memdb w ++ [∅]) (log w) (journal w ++ [Connect ":memory:" false])).
Proof. done. Qed.

Lemma duckdb_connect_new database_path w :
  database_path <> ":memory:" ->
  fs w !! database_path = None ->
  duckdb_connect database_path false w
  = (inr (FileCon database_path),
     World (<[database_path := DuckDBFile ∅]> (fs w)) (memdb w) (log w)
       (journal w ++ [Connect database_path false])).
Proof.
  intros Hmem Hfile. unfold duckdb_connect, bind, record_event. simpl.
  rewrite decide_False by done. by rewrite Hfile.
Qed.

(** Connecting to an existing database file changes nothing but the journal. *)
Lemma duckdb_connect_existing database_path db w :
  database_path <> ":memory:" ->
  fs w !! database_path = Some (DuckDBFile db) ->
  duckdb_connect database_path false w
  = (inr (FileCon database_path),
     World (fs w) (memdb w) (log w) (journal w ++ [Connect database_path false])).
Proof.
  intros Hmem Hfile. unfold duckdb_connect, bind, record_event. simpl.
  rewrite decide_False by done. by rewrite Hfile.
Qed.

(** C5: when the database file exists and force-overwrite is not requested,
    the loader returns a connection to that database, holding the tables it
    held before; the file system and the in-memory databases are as they
    were, and the only call made to the engine is the connect (no statement,
    so no CREATE TABLE, is executed), whatever the mapping. *)
Theorem loader_leaves_existing_database
    (csv_files : dict string string) (database_path : string)
    (db : database) (w : world) :
  database_path <> ":memory:" ->
  fs w !! database_path = Some (DuckDBFile db) ->
  exists con w',
    load_csv_to_duckdb csv_files false database_path w = (inr con, w')
    /\ database_of con w' = Some db
    /\ fs w' = fs w
    /\ memdb w' = memdb w
    /\ journal w' = journal w ++ [Connect database_path false].
Proof.
  intros Hmem Hfile.
  exists (FileCon database_path).
  eexists. split.
  - unfold load_csv_to_duckdb, logger_info, logger_warning.
    unfold bind at 1. simpl.
    erewrite bind_inr by (by eapply path_exists_some).
    simpl. unfold bind at 1. simpl.
    by apply (duckdb_connect_existing database_path db).
  - simpl. by rewrite Hfile.
Qed.

Lemma loader_leaves_existing_database_witness :
  "data/sales.duckdb" <> ":memory:"
  /\ exists db con w',
       fs sales_world !! "data/sales.duckdb" = Some (DuckDBFile db)
       /\ load_csv_to_duckdb [("dim_store", "data/dim_store.csv")] false
            "data/sales.duckdb" sales_world = (inr con, w')
       /\ database_of con w' = Some db
       /\ fs w' = fs sales_world
       /\ memdb w' = memdb sales_world
       /\ journal w' = journal sales_world ++ [Connect "data/sales.duckdb" false].
Proof.
  assert ("data/sales.duckdb" <> ":memory:") as Hmem by discriminate.
  split; [exact Hmem|].
  eexists.
  assert (fs sales_world !! "data/sales.duckdb" = Some (DuckDBFile _)) as Hfile
    by (vm_compute; reflexivity).
  destruct (loader_leaves_existing_database
              [("dim_store", "data/dim_store.csv")] "data/sales.duckdb" _
              sales_world Hmem Hfile) as (con & w' & H).
  exists con, w'. split; [exact Hfile | exact H].
Defined.

(** *** Statements that do not read the log *)

Lemma same_state_refl w : same_state w w.
Proof. done. Qed.

Lemma log_blind_ret {A} (x : A) : log_blind (ret x).
Proof. by intros w1 w2 H. Qed.

Lemma log_blind_raise {A} e : log_blind (@raise A e).
Proof. by intros w1 w2 H. Qed.

Lemma log_blind_bind {A B} (c : M A) (k : A -> M B) :
  log_blind c -> (forall x, log_blind (k x)) -> log_blind (bind c k).
Proof.
  intros Hc Hk w1 w2 Hw. unfold bind. specialize (Hc w1 w2 Hw).
  destruct (c w1) as [[e1|x1] w1'], (c w2) as [[e2|x2] w2'];
    simpl in Hc; destruct Hc as [Heq Hw']; try discriminate Heq.
  - injection Heq as ->. by split.
  - injection Heq as ->. by apply Hk.
Qed.





Lemma log_blind_for_in {A S} (body : S -> A -> M S) xs acc :
  (forall acc x, log_blind (body acc x)) -> log_blind (for_in xs body acc).
Proof.
  intros Hbody. revert acc. induction xs as [|x xs IH]; intros acc.
  - apply log_blind_ret.
  - rewrite for_in_cons. apply log_blind_bind; [apply Hbody | apply IH].
Qed.


(** *** Which paths hold a file is not changed by the loader's loop *)

Lemma con_execute_present con q w p :
  is_Some (fs (con_execute con q w).2 !! p) <-> is_Some (fs w !! p).
Proof.
  unfold con_execute, bind, record_event. simpl.
  destruct con as [path|n]; simpl.
  - destruct (fs w !! path) as [[?|db]|] eqn:Hpath; simpl; try done.
    destruct (run_statement q (fs w) db) as [e|[db' rows]]; simpl; [done|].
    rewrite lookup_insert_is_Some.
    destruct (decide (path = p)) as [<-|Hne].
    + rewrite Hpath. split; eauto.
    + split; [by intros [?|[_ ?]] | by right].
  - destruct (memdb w !! n) as [db|]; simpl; [|done].
    by destruct (run_statement q (fs w) db) as [e|[db' rows]].
Qed.

Lemma load_step_missing con acc table_name csv_path w :
  fs w !! csv_path = None ->
  load_step con acc (table_name, csv_path) w
  = (inr tt,
     World (fs w) (memdb w)
       (log w ++ [(ERROR, "CSV file '" +:+ csv_path +:+ "' does not exist. Skipping table '"
                            +:+ table_name +:+ "'.")])
       (journal w)).
Proof.
  intros Hnone. unfold load_step.
  by rewrite (bind_inr _ _ _ _ _ (path_exists_none _ _ Hnone)).
Qed.

Lemma load_step_present con acc item w p :
  is_Some (fs (load_step con acc item w).2 !! p) <-> is_Some (fs w !! p).
Proof.
  destruct item as [table_name csv_path].
  destruct (fs w !! csv_path) as [f|] eqn:Hcsv.
  - unfold load_step.
    rewrite (bind_inr _ _ _ _ _ (path_exists_some _ _ _ Hcsv)). simpl.
    unfold logger_info, logger. unfold bind at 1. simpl. unfold bind.
    match goal with
    | |- context [con_execute ?c ?q ?w0] =>
        pose proof (con_execute_present c q w0 p) as Hex;
        destruct (con_execute c q w0) as [[e|rows] w']
    end; simpl in *; done.
  - by rewrite load_step_missing.
Qed.




(** C2 (the code departs from it): the first forced run on
    [{"dim_store": "data/dim_store.csv"}] creates the table in
    [data/sales.duckdb]; the second forced run sends the same plain
    [CREATE TABLE dim_store AS ...] to the database that now holds
    [dim_store], and raises instead of returning. *)
Theorem loader_second_forced_run_raises :
  exists con w1 w2,
    load_csv_to_duckdb [("dim_store", "data/dim_store.csv")] true "data/sales.duckdb"
      store_csv_world = (inr con, w1)
    /\ database_of con w1
       = Some (<["dim_store" := [("store_id", "BIGINT"); ("city", "VARCHAR")]]> ∅)
    /\ load_csv_to_duckdb [("dim_store", "data/dim_store.csv")] true "data/sales.duckdb" w1
       = (inl (CatalogException
                 ("Table with name " +:+ dquote +:+ "dim_store" +:+ dquote
                    +:+ " already exists!")), w2)
    /\ last (journal w2)
       = Some (Execute con
                 "CREATE TABLE dim_store AS SELECT * FROM read_csv_auto('data/dim_store.csv')").
Proof.
  eexists _, _, _. split; [vm_compute; reflexivity|].
  split; [vm_compute; reflexivity|].
  split; vm_compute; reflexivity.
Qed.

(** ** Insertion-ordered dictionaries *)

Lemma elem_of_first_seen x xs : x ∈ first_seen xs <-> x ∈ xs.
Proof.
  induction xs as [|y xs IH]; [done|].
  cbn [first_seen]. rewrite !elem_of_cons, list_elem_of_filter, IH.
  destruct (decide (x = y)) as [->|Hne]; [by split; left|].
  split.
  - intros [?|[_ ?]]; [by left | by right].
  - intros [?|?]; [by left | by right].
Qed.

Lemma NoDup_first_seen xs : NoDup (first_seen xs).
Proof.
  induction xs as [|y xs IH]; cbn [first_seen]; [constructor|].
  constructor; [|by apply NoDup_filter].
  rewrite list_elem_of_filter. by intros [? _].
Qed.

Lemma first_seen_snoc xs x :
  first_seen (xs ++ [x])
  = if decide (x ∈ xs) then first_seen xs else first_seen xs ++ [x].
Proof.
  induction xs as [|y xs IH].
  - rewrite decide_False; [done|]. by intros ?%elem_of_nil.
  - change (first_seen ((y :: xs) ++ [x]))
      with (y :: filter (fun z => z <> y) (first_seen (xs ++ [x]))).
    rewrite IH. cbn [first_seen]. destruct (decide (x = y)) as [->|Hxy].
    + rewrite (decide_True (P := y ∈ y :: xs)) by (by left).
      destruct (decide (y ∈ xs)); [done|].
      rewrite filter_app, filter_cons_False by (by intros ?).
      by rewrite filter_nil, app_nil_r.
    + destruct (decide (x ∈ xs)) as [Hin|Hin].
      * by rewrite (decide_True (P := x ∈ y :: xs)) by (by right).
      * rewrite (decide_False (P := x ∈ y :: xs))
          by (by intros [?|?]%elem_of_cons).
        by rewrite filter_app, filter_cons_True.
Qed.

Lemma filter_ne_id (y : string) (xs : list string) :
  y ∉ xs -> filter (fun z => z <> y) xs = xs.
Proof.
  induction xs as [|x xs IH]; intros Hy; [done|].
  apply not_elem_of_cons in Hy as [Hne Hy].
  rewrite filter_cons_True by done. by rewrite IH.
Qed.

Lemma first_seen_NoDup xs : NoDup xs -> first_seen xs = xs.
Proof.
  induction 1 as [|y xs Hy Hnd IH]; cbn [first_seen]; [done|].
  rewrite IH. by rewrite filter_ne_id.
Qed.

Lemma keys_setitem {V} (d : dict string V) k v :
  keys (setitem d k v) = if decide (k ∈ keys d) then keys d else keys d ++ [k].
Proof.
  induction d as [|[k' v'] d IH].
  - rewrite decide_False; [done|]. by intros ?%elem_of_nil.
  - cbn [setitem]. destruct (decide (k = k')) as [->|Hne].
    + by rewrite decide_True by (by left).
    + change (keys ((k', v') :: setitem d k v)) with (k' :: keys (setitem d k v)).
      rewrite IH. change (keys ((k', v') :: d)) with (k' :: keys d).
      destruct (decide (k ∈ keys d)) as [Hin|Hin].
      * by rewrite decide_True by (by right).
      * by rewrite decide_False by (by intros [?|?]%elem_of_cons).
Qed.

Lemma keys_comprehension {A V} (key : A -> string) (value : A -> V) xs :
  keys (comprehension key value xs) = first_seen (key <$> xs).
Proof.
  unfold comprehension. induction xs as [|x xs IH] using rev_ind; [done|].
  rewrite foldl_app, fmap_app. cbn [foldl fmap list_fmap].
  rewrite first_seen_snoc, keys_setitem, IH.
  destruct (decide (key x ∈ key <$> xs)) as [Hin|Hin].
  - by rewrite decide_True by (by apply elem_of_first_seen).
  - by rewrite decide_False by (by rewrite elem_of_first_seen).
Qed.

Lemma setitem_Forall {V} (P : string * V -> Prop) (d : dict string V) k v :
  Forall P d -> P (k, v) -> Forall P (setitem d k v).
Proof.
  intros Hd Hk. induction Hd as [|[k' v'] d Hx Hd IH]; cbn [setitem].
  - by constructor.
  - destruct (decide (k = k')) as [->|Hne]; by constructor.
Qed.

(** ** Bridge Synthesizer: schema inference *)

(** C3: when nothing exists at the database path, schema inference raises
    FileNotFoundError and the world is what it was: no connection was opened
    and no query executed (the journal of engine calls is unchanged), and
    neither the file system, a database nor the log was modified. *)
Theorem infer_missing_database_raises
    (tables : list string) (database_path : string) (w : world) :
  fs w !! database_path = None ->
  infer_schemas_and_generate_puppini_bridge_sql tables database_path w
  = (inl (FileNotFoundError ("Database file '" +:+ database_path +:+ "' does not exist!")),
     w).
Proof.
  intros Hnone. unfold infer_schemas_and_generate_puppini_bridge_sql.
  by rewrite (bind_inr _ _ _ _ _ (path_exists_none _ _ Hnone)).
Qed.

Lemma infer_missing_database_raises_witness :
  fs fresh_world !! "data/sales.duckdb" = None
  /\ infer_schemas_and_generate_puppini_bridge_sql ["fact_sales"; "dim_product"]
       "data/sales.duckdb" fresh_world
     = (inl (FileNotFoundError
               ("Database file '" +:+ "data/sales.duckdb" +:+ "' does not exist!")),
        fresh_world).
Proof.
  assert (fs fresh_world !! "data/sales.duckdb" = None) as H by reflexivity.
  split; [exact H|].
  exact (infer_missing_database_raises ["fact_sales"; "dim_product"]
           "data/sales.duckdb" fresh_world H).
Defined.

Lemma set_database_id con db w :
  database_of con w = Some db -> set_database con db w = w.
Proof.
  destruct w as [f m l j]. destruct con as [path|n]; simpl; intros H.
  - destruct (f !! path) as [[?|db']|] eqn:Hpath; try done.
    injection H as ->. by rewrite insert_id.
  - by rewrite list_insert_id.
Qed.

Lemma con_execute_pragma con table db columns w :
  database_of con w = Some db ->
  db !! table = Some columns ->
  con_execute con (PragmaTableInfo table) w
  = (inr (table_info columns),
     World (fs w) (memdb w) (log w)
       (journal w ++ [Execute con ("PRAGMA table_info(" +:+ table +:+ ")")])).
Proof.
  intros Hdb Htable. unfold con_execute, bind, record_event.
  cbn [fst snd sql_text].
  replace (database_of con
             (World (fs w) (memdb w) (log w)
                (journal w ++ [Execute con ("PRAGMA table_info(" +:+ table +:+ ")")])))
    with (Some db) by (by destruct con).
  cbn [run_statement fs]. rewrite Htable.
  by rewrite set_database_id by (by destruct con).
Qed.


Lemma foldl_setitem_Forall {A V} (P : string * V -> Prop)
    (key : A -> string) (value : A -> V) xs (acc : dict string V) :
  Forall P acc ->
  Forall (fun x => P (key x, value x)) xs ->
  Forall P (foldl (fun d x => setitem d (key x) (value x)) acc xs).
Proof.
  intros Hacc Hxs. revert acc Hacc.
  induction Hxs as [|x xs Hx Hxs IH]; intros acc Hacc; [done|].
  cbn [foldl]. apply IH. by apply setitem_Forall.
Qed.






(** ** Diagram Generator *)

Section dict_of_keys.
Context {V : Type} (g : string -> V).

Lemma getitem_fmap_keys (l : list string) k :
  getitem ((fun t => (t, g t)) <$> l) k = if decide (k ∈ l) then Some (g k) else None.
Proof.
  induction l as [|t l IH].
  - rewrite decide_False; [done|]. by intros ?%elem_of_nil.
  - cbn [fmap list_fmap getitem]. destruct (decide (k = t)) as [->|Hne].
    + by rewrite decide_True by (by left).
    + change (list_fmap _ _ ?f l) with (f <$> l). rewrite IH.
      destruct (decide (k ∈ l)) as [Hin|Hin].
      * by rewrite decide_True by (by right).
      * by rewrite decide_False by (by intros [?|?]%elem_of_cons).
Qed.

Lemma setitem_fmap_keys_fresh (l : list string) k v :
  k ∉ l -> setitem ((fun t => (t, g t)) <$> l) k v = ((fun t => (t, g t)) <$> l) ++ [(k, v)].
Proof.
  induction l as [|t l IH]; intros Hk; [done|].
  apply not_elem_of_cons in Hk as [Hne Hk].
  cbn [fmap list_fmap setitem]. rewrite decide_False by done.
  change (list_fmap _ _ ?f l) with (f <$> l). by rewrite IH.
Qed.

Lemma setitem_fmap_keys (l : list string) k v :
  NoDup l -> k ∈ l ->
  setitem ((fun t => (t, g t)) <$> l) k v
  = (fun t => (t, if decide (t = k) then v else g t)) <$> l.
Proof.
  induction 1 as [|t l Ht Hnd IH]; intros Hk; [by apply elem_of_nil in Hk|].
  cbn [fmap list_fmap setitem]. destruct (decide (k = t)) as [->|Hne].
  - rewrite decide_True by done. f_equal.
    apply list_fmap_ext. intros i t' Ht'.
    rewrite decide_False; [done|]. intros ->.
    apply Ht. by eapply list_elem_of_lookup_2.
  - rewrite (decide_False (P := t = k)) by done. f_equal.
    apply IH. by apply elem_of_cons in Hk as [?|?].
Qed.

End dict_of_keys.

Section rendering.
Context (str_lower : string -> string).

Local Abbreviation erd_column_lines := (erd_column_lines str_lower).
Local Abbreviation erd_table_block := (erd_table_block str_lower).
Local Abbreviation erd_group_step := (erd_group_step str_lower).
Local Abbreviation generate_mermaid_erd := (generate_mermaid_erd str_lower).

(** The [tables] dictionary after the rows [table_columns]: the tables in
    first-seen order, each with the lines of its columns. *)
Lemma erd_column_lines_snoc table_columns table column data_type t :
  erd_column_lines (table_columns ++ [(table, column, data_type)]) t
  = erd_column_lines table_columns t
    ++ (if decide (t = table) then [str_lower data_type +:+ " " +:+ column] else []).
Proof.
  unfold erd_column_lines. rewrite filter_app, fmap_app. f_equal.
  destruct (decide (t = table)) as [->|Hne].
  - by rewrite filter_cons_True.
  - rewrite filter_cons_False; [done|]. cbn [fst snd]. congruence.
Qed.

Lemma erd_column_lines_unseen table_columns t :
  t ∉ (fun row => row.1.1) <$> table_columns -> erd_column_lines table_columns t = [].
Proof.
  intros Ht. unfold erd_column_lines.
  induction table_columns as [|row rows IH]; [done|].
  cbn [fmap list_fmap] in Ht. apply not_elem_of_cons in Ht as [Hne Ht].
  rewrite filter_cons_False by congruence. by apply IH.
Qed.

Lemma erd_group_step_run table_columns table column data_type w :
  erd_group_step
    ((fun t => (t, erd_column_lines table_columns t))
       <$> first_seen ((fun row => row.1.1) <$> table_columns))
    (table, column, data_type) w
  = (inr ((fun t => (t, erd_column_lines (table_columns ++ [(table, column, data_type)]) t))
            <$> first_seen
                  ((fun row => row.1.1) <$> (table_columns ++ [(table, column, data_type)]))),
     w).
Proof.
  set (seen := (fun row : string * string * string => row.1.1) <$> table_columns).
  set (line := str_lower data_type +:+ " " +:+ column).
  rewrite fmap_app. cbn [fmap list_fmap]. fold seen.
  assert ((if negb (mem ((fun t => (t, erd_column_lines table_columns t))
                           <$> first_seen seen) table)
           then setitem ((fun t => (t, erd_column_lines table_columns t))
                           <$> first_seen seen) table []
           else (fun t => (t, erd_column_lines table_columns t)) <$> first_seen seen)
          = (fun t => (t, erd_column_lines table_columns t))
              <$> first_seen (seen ++ [table])) as Hguard.
  { unfold mem. rewrite getitem_fmap_keys, first_seen_snoc.
    destruct (decide (table ∈ seen)) as [Hin|Hin].
    - rewrite decide_True by (by apply elem_of_first_seen).
      by rewrite bool_decide_eq_true_2 by eauto.
    - rewrite decide_False by (by rewrite elem_of_first_seen).
      rewrite bool_decide_eq_false_2 by (by intros [? ?]). cbn [negb].
      rewrite setitem_fmap_keys_fresh by (by rewrite elem_of_first_seen).
      rewrite fmap_app. cbn [fmap list_fmap].
      by rewrite (erd_column_lines_unseen table_columns table). }
  unfold erd_group_step. fold line. rewrite Hguard.
  unfold list_append_at. rewrite getitem_fmap_keys.
  rewrite decide_True by (apply elem_of_first_seen, elem_of_app; right; by left).
  rewrite setitem_fmap_keys.
  - unfold ret. do 2 f_equal. apply list_fmap_ext. intros i t _.
    rewrite erd_column_lines_snoc. fold line.
    destruct (decide (t = table)) as [->|Hne]; [done|]. by rewrite app_nil_r.
  - apply NoDup_first_seen.
  - apply elem_of_first_seen, elem_of_app. right. by left.
Qed.

Lemma erd_group_loop table_columns w :
  for_in table_columns erd_group_step [] w
  = (inr ((fun t => (t, erd_column_lines table_columns t))
            <$> first_seen ((fun row => row.1.1) <$> table_columns)), w).
Proof.
  induction table_columns as [|[[table column] data_type] rows IH] using rev_ind; [done|].
  rewrite for_in_app, (bind_inr _ _ _ _ _ IH), for_in_cons.
  by rewrite (bind_inr _ _ _ _ _ (erd_group_step_run rows table column data_type w)).
Qed.

Lemma foldl_append_blocks {A} (f : list string -> A -> list string)
    (block : A -> list string) xs (acc : list string) :
  (forall acc x, f acc x = acc ++ block x) ->
  foldl f acc xs = acc ++ concat (block <$> xs).
Proof.
  intros Hf. revert acc.
  induction xs as [|x xs IH]; intros acc; cbn [foldl fmap list_fmap concat].
  - by rewrite app_nil_r.
  - change (list_fmap _ _ block xs) with (block <$> xs).
    by rewrite IH, Hf, app_assoc.
Qed.

Lemma concat_singletons {A B} (f : A -> B) (xs : list A) :
  concat ((fun x => [f x]) <$> xs) = f <$> xs.
Proof. induction xs as [|x xs IH]; [done|]. cbn. by f_equal. Qed.

(** The lines of the diagram: header, table blocks, relationship lines. *)
Lemma generate_mermaid_erd_outcome table_columns foreign_keys w :
  outcome (generate_mermaid_erd table_columns foreign_keys) w
  = inr (String.concat newline
           (["erDiagram"]
              ++ concat (erd_table_block table_columns
                           <$> first_seen ((fun row => row.1.1) <$> table_columns))
              ++ (erd_relationship_line <$> foreign_keys))).
Proof.
  unfold outcome, generate_mermaid_erd, logger_info.
  rewrite (bind_inr _ _ _ _ _ (logger_run _ _ _)).
  rewrite (bind_inr _ _ _ _ _ (erd_group_loop _ _)).
  erewrite bind_inr; cycle 1.
  { apply (for_in_ret
             (fun lines (item : string * list string) =>
                ((lines ++ ["  " +:+ item.1 +:+ " {"])
                   ++ ((fun col => "    " +:+ col) <$> item.2)) ++ ["  }"])).
    by intros acc [table columns] w'. }
  rewrite (bind_inr _ _ _ _ _ (logger_run _ _ _)).
  erewrite bind_inr; cycle 1.
  { apply (for_in_ret (fun lines fk => lines ++ [erd_relationship_line fk])).
    by intros acc [[[from_table from_column] to_table] to_column] w'. }
  unfold ret, items. cbn [fst]. do 2 f_equal.
  rewrite (foldl_append_blocks _ (fun fk => [erd_relationship_line fk]))
    by done.
  rewrite concat_singletons.
  rewrite (foldl_append_blocks _
             (fun item : string * list string =>
                ["  " +:+ item.1 +:+ " {"]
                  ++ ((fun col => "    " +:+ col) <$> item.2) ++ ["  }"]))
    by (intros; by rewrite <- !app_assoc).
  rewrite <- list_fmap_compose, <- app_assoc. do 3 f_equal.
  apply list_fmap_ext. intros i t _. unfold erd_table_block, erd_column_lines.
  cbn [compose fst snd]. by rewrite <- list_fmap_compose.
Qed.

End rendering.

(** C6: for every result of the two catalog queries, the diagram is the
    newline-joined list of: the header line [erDiagram]; for each table, in
    first-seen order of the column listing, its block (a header line with
    the table name, one line per column reading the lowercased type, a
    space, the column name, and a closing line); then one relationship line
    per foreign-key tuple, annotated ["<from_column> -> <to_column>"].  The
    lowercased type is what Python's [str.lower] makes of the type; where
    the types of the listing are ASCII text, it is the type with [A] to [Z]
    replaced by [a] to [z]. *)
Theorem mermaid_erd_layout (str_lower : string -> string)
    (table_columns : list (string * string * string))
    (foreign_keys : list (string * string * string * string)) (w : world) :
  lowers_ascii str_lower ->
  outcome (generate_mermaid_erd str_lower table_columns foreign_keys) w
  = inr (String.concat newline
           (["erDiagram"]
              ++ concat
                   ((fun table =>
                       ["  " +:+ table +:+ " {"]
                         ++ ((fun row => "    " +:+ str_lower row.2 +:+ " " +:+ row.1.2)
                               <$> filter (fun row => row.1.1 = table) table_columns)
                         ++ ["  }"])
                      <$> first_seen ((fun row => row.1.1) <$> table_columns))
              ++ ((fun fk =>
                     "  " +:+ fk.1.1.1 +:+ " }o--o{ " +:+ fk.1.2 +:+ " : " +:+ dquote
                       +:+ fk.1.1.2 +:+ " -> " +:+ fk.2 +:+ dquote)
                    <$> foreign_keys)))
  /\ (Forall (fun row => is_ascii row.2 = true) table_columns ->
      outcome (generate_mermaid_erd str_lower table_columns foreign_keys) w
      = inr (String.concat newline
               (["erDiagram"]
                  ++ concat
                       ((fun table =>
                           ["  " +:+ table +:+ " {"]
                             ++ ((fun row =>
                                    "    " +:+ ascii_lowercase row.2 +:+ " " +:+ row.1.2)
                                   <$> filter (fun row => row.1.1 = table) table_columns)
                             ++ ["  }"])
                          <$> first_seen ((fun row => row.1.1) <$> table_columns))
                  ++ ((fun fk =>
                         "  " +:+ fk.1.1.1 +:+ " }o--o{ " +:+ fk.1.2 +:+ " : " +:+ dquote
                           +:+ fk.1.1.2 +:+ " -> " +:+ fk.2 +:+ dquote)
                        <$> foreign_keys)))).
Proof.
  intros Hlower. split; [apply generate_mermaid_erd_outcome|].
  intros Hascii. rewrite generate_mermaid_erd_outcome. do 3 f_equal.
  f_equal. f_equal.
  apply list_fmap_ext. intros i table _. unfold erd_table_block. do 2 f_equal.
  apply list_fmap_ext. intros k row Hrow%list_elem_of_lookup_2.
  apply list_elem_of_filter in Hrow as [_ Hrow].
  rewrite Forall_forall in Hascii. by rewrite Hlower by (by apply Hascii).
Qed.

(** The diagram of a listing with upper-case type names, one of them with
    digits and punctuation, under a [str.lower] that is the ASCII one. *)
Lemma mermaid_erd_layout_witness :
  lowers_ascii ascii_lowercase
  /\ outcome
       (generate_mermaid_erd ascii_lowercase
          [("fact_sales", "sale_id", "INTEGER");
           ("fact_sales", "amount", "DECIMAL(10,2)");
           ("dim_product", "product_id", "INTEGER");
           ("fact_sales", "Product_ID", "BigInt")]
          [("fact_sales", "Product_ID", "dim_product", "product_id")])
       fresh_world
     = inr ("erDiagram" +:+ newline
              +:+ "  fact_sales {" +:+ newline
              +:+ "    integer sale_id" +:+ newline
              +:+ "    decimal(10,2) amount" +:+ newline
              +:+ "    bigint Product_ID" +:+ newline
              +:+ "  }" +:+ newline
              +:+ "  dim_product {" +:+ newline
              +:+ "    integer product_id" +:+ newline
              +:+ "  }" +:+ newline
              +:+ "  fact_sales }o--o{ dim_product : " +:+ dquote
              +:+ "Product_ID -> product_id" +:+ dquote).
Proof.
  assert (lowers_ascii ascii_lowercase) as Hlower by (by intros s _).
  split; [exact Hlower|].
  exact (proj1 (mermaid_erd_layout ascii_lowercase
                  [("fact_sales", "sale_id", "INTEGER");
                   ("fact_sales", "amount", "DECIMAL(10,2)");
                   ("dim_product", "product_id", "INTEGER");
                   ("fact_sales", "Product_ID", "BigInt")]
                  [("fact_sales", "Product_ID", "dim_product", "product_id")]
                  fresh_world Hlower)).
Defined.

(** C8: every foreign-key tuple gets its relationship line, whatever the
    column listing holds: the lines of the diagram are the lines of the
    diagram without foreign keys followed by one line per tuple, and each
    of these lines occurs in the text.  Nothing compares the tuples with the
    tables that were rendered. *)
Theorem mermaid_erd_renders_every_foreign_key (str_lower : string -> string)
    (table_columns : list (string * string * string))
    (foreign_keys : list (string * string * string * string)) (w : world) :
  exists table_lines diagram,
    outcome (generate_mermaid_erd str_lower table_columns []) w
    = inr (String.concat newline table_lines)
    /\ outcome (generate_mermaid_erd str_lower table_columns foreign_keys) w = inr diagram
    /\ diagram
       = String.concat newline (table_lines ++ (erd_relationship_line <$> foreign_keys))
    /\ Forall (fun fk => contains (erd_relationship_line fk) diagram) foreign_keys.
Proof.
  eexists _, _. rewrite !generate_mermaid_erd_outcome.
  split; [|split; [reflexivity|split]].
  - cbn [fmap list_fmap]. by rewrite app_nil_r.
  - by rewrite app_assoc.
  - apply Forall_forall. intros fk Hin. apply contains_concat.
    rewrite !elem_of_app. right. right. by apply list_elem_of_fmap_2.
Qed.

(** A foreign key whose target table has no row in the column listing:
    the edge is rendered and no block of [dim_product] is. *)
Example mermaid_erd_dangling_reference :
  outcome
    (generate_mermaid_erd ascii_lowercase
       [("fact_sales", "sale_id", "INTEGER"); ("fact_sales", "product_id", "INTEGER")]
       [("fact_sales", "product_id", "dim_product", "product_id")])
    fresh_world
  = inr ("erDiagram" +:+ newline
           +:+ "  fact_sales {" +:+ newline
           +:+ "    integer sale_id" +:+ newline
           +:+ "    integer product_id" +:+ newline
           +:+ "  }" +:+ newline
           +:+ "  fact_sales }o--o{ dim_product : " +:+ dquote
           +:+ "product_id -> product_id" +:+ dquote).
Proof. vm_compute. reflexivity. Qed.

(** ** Schema Loader: a forced run on the database of an earlier run *)

Lemma con_execute_create_table path table_name csv_path db w rows w' :
  fs w !! path = Some (DuckDBFile db) ->
  con_execute (FileCon path) (CreateTableAsReadCsvAuto table_name csv_path) w
  = (inr rows, w') ->
  exists inferred,
    fs w !! csv_path = Some (CsvFile inferred)
    /\ db !! table_name = None
    /\ fs w' = <[path := DuckDBFile (<[table_name := inferred]> db)]> (fs w).
Proof.
  intros Hpath. unfold con_execute, bind, record_event.
  cbn [fst snd database_of fs sql_text]. rewrite Hpath. cbn [run_statement].
  destruct (fs w !! csv_path) as [[inferred|?]|]; [|done|done].
  destruct (db !! table_name); [done|].
  intros [= _ <-]. by exists inferred.
Qed.

Lemma con_execute_create_existing path table_name csv_path db inferred columns w :
  fs w !! path = Some (DuckDBFile db) ->
  fs w !! csv_path = Some (CsvFile inferred) ->
  db !! table_name = Some columns ->
  exists msg w',
    con_execute (FileCon path) (CreateTableAsReadCsvAuto table_name csv_path) w
    = (inl (CatalogException msg), w').
Proof.
  intros Hpath Hcsv Htable. unfold con_execute, bind, record_event.
  cbn [fst snd database_of fs sql_text]. rewrite Hpath. cbn [run_statement].
  rewrite Hcsv, Htable. by eexists _, _.
Qed.

(** A step of the loop that returns: the tables that were there are still
    there, the table of an entry with a file is there, that file is a CSV
    file other than the database, and no other file has changed. *)
Lemma load_step_returns path table_name csv_path db w w' :
  fs w !! path = Some (DuckDBFile db) ->
  load_step (FileCon path) tt (table_name, csv_path) w = (inr tt, w') ->
  exists db',
    fs w' !! path = Some (DuckDBFile db')
    /\ (forall t, is_Some (db !! t) -> is_Some (db' !! t))
    /\ (is_Some (fs w !! csv_path) ->
        is_Some (db' !! table_name) /\ csv_path <> path
        /\ exists inferred, fs w !! csv_path = Some (CsvFile inferred))
    /\ (forall p, p <> path -> fs w' !! p = fs w !! p).
Proof.
  intros Hpath. destruct (fs w !! csv_path) as [f|] eqn:Hcsv.
  - unfold load_step.
    rewrite (bind_inr _ _ _ _ _ (path_exists_some _ _ _ Hcsv)). cbn [negb].
    unfold logger_info. rewrite (bind_inr _ _ _ _ _ (logger_run _ _ _)).
    unfold bind at 1.
    match goal with
    | |- context [con_execute ?c ?q ?w0] =>
        pose proof (con_execute_create_table path table_name csv_path db w0) as Hex;
        destruct (con_execute c q w0) as [[e|rows] w1]
    end; [done|].
    destruct (Hex rows w1 Hpath eq_refl) as (inferred & Hinf & Hfresh & Hfs).
    cbn [fs] in Hinf, Hfs. intros [= <-]. cbn [fs]. rewrite Hfs.
    exists (<[table_name := inferred]> db). split; [|split; [|split]].
    + by rewrite lookup_insert_eq.
    + intros t Ht. rewrite lookup_insert_is_Some.
      destruct (decide (table_name = t)); [by left | by right].
    + intros _. split; [by rewrite lookup_insert_eq|]. split.
      * intros ->. rewrite Hpath in Hinf. discriminate Hinf.
      * exists inferred. by rewrite <- Hcsv.
    + intros p Hp. by rewrite lookup_insert_ne.
  - rewrite load_step_missing by done. intros [= <-]. cbn [fs].
    exists db. split; [done|]. split; [done|]. split; [|done].
    by intros [? ?].
Qed.

Lemma load_loop_returns path db xs w w' :
  fs w !! path = Some (DuckDBFile db) ->
  for_in xs (load_step (FileCon path)) tt w = (inr tt, w') ->
  exists db',
    fs w' !! path = Some (DuckDBFile db')
    /\ (forall t, is_Some (db !! t) -> is_Some (db' !! t))
    /\ Forall
         (fun item =>
            is_Some (fs w !! item.2) ->
            is_Some (db' !! item.1) /\ item.2 <> path
            /\ exists inferred, fs w !! item.2 = Some (CsvFile inferred))
         xs
    /\ (forall p, p <> path -> fs w' !! p = fs w !! p).
Proof.
  revert db w. induction xs as [|[table_name csv_path] xs IH]; intros db w Hpath.
  - intros [= <-]. exists db. by repeat split.
  - rewrite for_in_cons. unfold bind.
    destruct (load_step (FileCon path) tt (table_name, csv_path) w)
      as [[e|[]] w1] eqn:Hstep; [done|].
    intros Hrest.
    destruct (load_step_returns _ _ _ _ _ _ Hpath Hstep)
      as (db1 & Hpath1 & Hmono1 & Hhead & Hframe1).
    destruct (IH db1 w1 Hpath1 Hrest) as (db' & Hpath' & Hmono & Htail & Hframe).
    exists db'. split; [done|]. split; [by auto|]. split; [|].
    + constructor.
      * cbn [fst snd]. intros Hp. destruct (Hhead Hp) as (Ht & Hne & Hcsv). auto.
      * eapply Forall_impl; [exact Htail|]. intros [t p]. cbn [fst snd].
        intros Hitem Hp.
        assert (is_Some (fs w1 !! p)) as Hp1.
        { destruct (decide (p = path)) as [->|Hne]; [by rewrite Hpath1|].
          by rewrite Hframe1. }
        destruct (Hitem Hp1) as (Ht & Hne & inferred & Hcsv).
        split; [done|]. split; [done|]. exists inferred. by rewrite <- Hframe1.
    + intros p Hp. by rewrite Hframe, Hframe1.
Qed.

(** The loop on a database that already holds the table of every entry
    with a file, one such entry at least: the first of them raises. *)
Lemma load_loop_raises path db xs w :
  fs w !! path = Some (DuckDBFile db) ->
  Forall
    (fun item =>
       is_Some (fs w !! item.2) ->
       is_Some (db !! item.1) /\ exists inferred, fs w !! item.2 = Some (CsvFile inferred))
    xs ->
  Exists (fun item => is_Some (fs w !! item.2)) xs ->
  exists msg w',
    for_in xs (load_step (FileCon path)) tt w = (inl (CatalogException msg), w').
Proof.
  revert w.
  induction xs as [|[table_name csv_path] xs IH]; intros w Hpath Hall Hex.
  - by apply Exists_nil in Hex.
  - apply Forall_cons in Hall as [Hhead Hall]. cbn [fst snd] in Hhead.
    rewrite for_in_cons.
    destruct (fs w !! csv_path) as [f|] eqn:Hcsv.
    + destruct Hhead as ([columns Htable] & inferred & [= ->]); [done|].
      assert (exists msg w',
                load_step (FileCon path) tt (table_name, csv_path) w
                = (inl (CatalogException msg), w')) as (msg & w' & Hstep).
      { unfold load_step.
        rewrite (bind_inr _ _ _ _ _ (path_exists_some _ _ _ Hcsv)). cbn [negb].
        unfold logger_info. rewrite (bind_inr _ _ _ _ _ (logger_run _ _ _)).
        destruct (con_execute_create_existing path table_name csv_path db inferred columns
                    (World (fs w) (memdb w)
                       (log w ++ [(INFO, "Loading CSV file '" +:+ csv_path
                                           +:+ "' into DuckDB table '" +:+ table_name
                                           +:+ "'...")])
                       (journal w)) Hpath Hcsv Htable) as (msg & w' & Hrun).
        exists msg, w'. by rewrite (bind_inl _ _ _ _ _ Hrun). }
      exists msg, w'. by rewrite (bind_inl _ _ _ _ _ Hstep).
    + rewrite (bind_inr _ _ _ _ _ (load_step_missing _ _ _ _ _ Hcsv)).
      apply IH; [done|done|].
      apply Exists_cons in Hex as [[? Hp]|Hex]; [|done].
      cbn [snd] in Hp. rewrite Hcsv in Hp. discriminate Hp.
Qed.

Lemma duckdb_connect_file database_path w con w' :
  database_path <> ":memory:" ->
  duckdb_connect database_path false w = (inr con, w') ->
  con = FileCon database_path
  /\ (exists db, fs w' !! database_path = Some (DuckDBFile db))
  /\ (forall p, p <> database_path -> fs w' !! p = fs w !! p).
Proof.
  intros Hmem. unfold duckdb_connect, bind, record_event. cbn [fst snd fs memdb log journal].
  rewrite decide_False by done.
  destruct (fs w !! database_path) as [[?|db]|] eqn:Hfile; [done| |].
  - intros [= <- <-]. cbn [fs]. eauto.
  - intros [= <- <-]. cbn [fs]. split; [done|]. split.
    + rewrite lookup_insert_eq. eauto.
    + intros p Hp. by rewrite lookup_insert_ne.
Qed.

(** X3: with a database file, a forced run that follows a forced run which
    had at least one source file to load never returns: the table of the
    first entry with a file is already there, and plain [CREATE TABLE]
    raises.  The mapping is one of plain table names and plain CSV paths,
    the database a [.duckdb] file in the working directory; the tables it
    holds before the first run, if it is there, have plain names. *)
Theorem loader_forced_reload_raises
    (csv_files : dict string string) (database_path : string)
    (w w1 : world) (con : connection) :
  plain_mapping csv_files ->
  plain_database_path database_path ->
  (forall db, fs w !! database_path = Some (DuckDBFile db) -> plain_database db) ->
  database_path <> ":memory:" ->
  Exists (fun item => is_Some (fs w !! item.2)) (items csv_files) ->
  load_csv_to_duckdb csv_files true database_path w = (inr con, w1) ->
  exists msg w2,
    load_csv_to_duckdb csv_files true database_path w1
    = (inl (CatalogException msg), w2).
Proof.
  intros _ _ _ Hmem Hex. unfold load_csv_to_duckdb at 1. unfold logger_info.
  rewrite (bind_inr _ _ _ _ _ (logger_run _ _ _)).
  unfold path_exists at 1. unfold bind at 1. rewrite andb_false_r.
  unfold bind at 1.
  match goal with
  | |- context [duckdb_connect database_path false ?w0] =>
      pose proof (duckdb_connect_file database_path w0) as Hcon;
      destruct (duckdb_connect database_path false w0) as [[e|con0] u]
  end; [done|].
  destruct (Hcon con0 u Hmem eq_refl) as (-> & [db Hpath] & Hframe0).
  cbn [fs] in Hframe0. unfold bind at 1.
  destruct (for_in (items csv_files) (load_step (FileCon database_path)) tt u)
    as [[e|[]] u1] eqn:Hloop; [done|].
  intros [= <- <-].
  destruct (load_loop_returns _ _ _ _ _ Hpath Hloop)
    as (db1 & Hpath1 & _ & Hitems & Hframe).
  assert (Forall
            (fun item : string * string =>
               is_Some (fs u1 !! item.2) ->
               is_Some (db1 !! item.1)
               /\ exists inferred, fs u1 !! item.2 = Some (CsvFile inferred))
            (items csv_files)) as Hall.
  { eapply Forall_impl; [exact Hitems|]. intros [t p]. cbn [fst snd]. intros Hitem Hp.
    assert (is_Some (fs u !! p)) as Hpu.
    { destruct (decide (p = database_path)) as [->|Hne]; [by rewrite Hpath|].
      by rewrite <- Hframe. }
    destruct (Hitem Hpu) as (Ht & Hne & inferred & Hcsv).
    split; [done|]. exists inferred. by rewrite Hframe. }
  assert (Exists (fun item : string * string => is_Some (fs u1 !! item.2))
            (items csv_files)) as Hex1.
  { apply Exists_exists in Hex as ([t p] & Hin & Hp). cbn [snd] in Hp.
    apply Exists_exists. exists (t, p). split; [done|]. cbn [snd].
    assert (is_Some (fs u !! p)) as Hpu.
    { destruct (decide (p = database_path)) as [->|Hne]; [by rewrite Hpath|].
      by rewrite Hframe0. }
    rewrite Forall_forall in Hitems.
    destruct (Hitems _ Hin Hpu) as (_ & Hne & _). by rewrite Hframe. }
  unfold load_csv_to_duckdb, logger_info.
  rewrite (bind_inr _ _ _ _ _ (logger_run _ _ _)).
  erewrite bind_inr by (by eapply path_exists_some).
  cbn [negb andb].
  erewrite bind_inr by (by apply (duckdb_connect_existing database_path db1)).
  destruct (load_loop_raises database_path db1 (items csv_files)
              (World (fs u1) (memdb u1)
                 (log u1 ++ [(INFO, "Connecting to DuckDB database at '" +:+ database_path
                                      +:+ "'...")])
                 (journal u1 ++ [Connect database_path false])) Hpath1 Hall Hex1)
    as (msg & w2 & Hraise).
  exists msg, w2. by rewrite (bind_inl _ _ _ _ _ Hraise).
Qed.

(** * Further properties *)

(** Plain names and paths of concrete mappings. *)
Ltac plain_path stem :=
  exists stem;
  split; [vm_compute; reflexivity | split; [discriminate | vm_compute; reflexivity]].

Ltac plain_entry segments :=
  split;
  [ vm_compute; reflexivity
  | exists segments;
    split; [vm_compute; reflexivity|];
    split; [discriminate|];
    repeat (apply Forall_cons; split; [split; [discriminate | vm_compute; reflexivity]|]);
    constructor ].

(** ** Bridge SQL generation *)

(** X8: the SQL text is a function of the table names and of each table's
    first column name alone: two schema maps that list the same tables in
    the same order and agree on the first column of each give the same
    outcome (the same SQL, or the same IndexError), whatever the types and
    the remaining columns are. *)
Theorem bridge_sql_depends_on_first_columns
    (schemas1 schemas2 : dict string (dict string string)) (w1 w2 : world) :
  Forall2 (fun item1 item2 =>
             item1.1 = item2.1 /\ head (keys item1.2) = head (keys item2.2))
    (items schemas1) (items schemas2) ->
  outcome (generate_puppini_bridge_sql schemas1) w1
  = outcome (generate_puppini_bridge_sql schemas2) w2.
Proof.
  intros Hagree. rewrite !generate_puppini_bridge_sql_outcome.
  replace (mapM bridge_branch schemas2) with (mapM bridge_branch schemas1); [done|].
  unfold items in Hagree.
  induction Hagree as [|[t1 c1] [t2 c2] l1 l2 [Ht Hc] Hagree IH]; [done|].
  cbn [fst snd] in Ht, Hc. subst t2.
  rewrite !bridge_branch_cons, IH.
  destruct (keys c1), (keys c2); try done. cbn in Hc. by injection Hc as ->.
Qed.

Lemma bridge_sql_depends_on_first_columns_witness :
  outcome (generate_puppini_bridge_sql dim_product_schemas) fresh_world
  = outcome
      (generate_puppini_bridge_sql
         [("dim_product", [("product_id", "BIGINT"); ("label", "TEXT"); ("price", "DOUBLE")])])
      fresh_world.
Proof.
  apply bridge_sql_depends_on_first_columns.
  repeat constructor.
Defined.

(** *** Statements that only append INFO lines to the log *)

Lemma only_logs_info_ret {A} (x : A) : only_logs_info (ret x).
Proof. intros w. repeat split. exists []. by rewrite app_nil_r. Qed.

Lemma only_logs_info_raise {A} e : only_logs_info (@raise A e).
Proof. intros w. repeat split. exists []. by rewrite app_nil_r. Qed.

Lemma only_logs_info_logger msg : only_logs_info (logger_info msg).
Proof. intros w. repeat split. eexists. split; [done|]. by repeat constructor. Qed.

Lemma only_logs_info_bind {A B} (c : M A) (k : A -> M B) :
  only_logs_info c -> (forall x, only_logs_info (k x)) -> only_logs_info (bind c k).
Proof.
  intros Hc Hk w. unfold bind.
  destruct (Hc w) as (Hf & Hm & Hj & lines & Hl & Hinfo).
  destruct (c w) as [[e|x] w1]; cbn [snd] in *.
  - repeat split; try done. by exists lines.
  - destruct (Hk x w1) as (Hf' & Hm' & Hj' & lines' & Hl' & Hinfo').
    rewrite Hf', Hm', Hj', Hl', Hf, Hm, Hj, Hl.
    repeat split. exists (lines ++ lines'). split; [by rewrite app_assoc|].
    by apply Forall_app.
Qed.

Lemma only_logs_info_for_in {A S} (body : S -> A -> M S) xs acc :
  (forall acc x, only_logs_info (body acc x)) -> only_logs_info (for_in xs body acc).
Proof.
  intros Hbody. revert acc. induction xs as [|x xs IH]; intros acc.
  - apply only_logs_info_ret.
  - rewrite for_in_cons. apply only_logs_info_bind; [apply Hbody | apply IH].
Qed.

Lemma only_logs_info_bridge_step acc item : only_logs_info (bridge_step acc item).
Proof.
  destruct item as [table columns]. unfold bridge_step.
  apply only_logs_info_bind; [apply only_logs_info_logger|]. intros _.
  apply only_logs_info_bind.
  - destruct (keys columns); [apply only_logs_info_raise | apply only_logs_info_ret].
  - intros primary_key.
    apply only_logs_info_bind; [apply only_logs_info_logger|]. intros _.
    apply only_logs_info_ret.
Qed.

(** X9: generating the SQL executes nothing.  Whether it returns or raises,
    [generate_puppini_bridge_sql] leaves the files and the databases as they
    were and makes no call to the engine; it only appends INFO lines to the
    log. *)
Theorem bridge_sql_generation_only_logs
    (schemas : dict string (dict string string)) (w : world) :
  fs (generate_puppini_bridge_sql schemas w).2 = fs w
  /\ memdb (generate_puppini_bridge_sql schemas w).2 = memdb w
  /\ journal (generate_puppini_bridge_sql schemas w).2 = journal w
  /\ exists lines,
       log (generate_puppini_bridge_sql schemas w).2 = log w ++ lines
       /\ Forall (fun entry => entry.1 = INFO) lines.
Proof.
  revert w. change (only_logs_info (generate_puppini_bridge_sql schemas)).
  unfold generate_puppini_bridge_sql.
  apply only_logs_info_bind.
  - apply only_logs_info_for_in, only_logs_info_bridge_step.
  - intros union_queries.
    apply only_logs_info_bind; [apply only_logs_info_logger|]. intros _.
    apply only_logs_info_bind; [apply only_logs_info_logger|]. intros _.
    apply only_logs_info_ret.
Qed.

(** ** Schema Loader: what a run creates and what it keeps *)

Lemma getitem_not_key {V} (d : dict string V) k : k ∉ keys d -> getitem d k = None.
Proof.
  induction d as [|[k' v'] d IH]; intros Hk; [done|].
  change (keys ((k', v') :: d)) with (k' :: keys d) in Hk.
  apply not_elem_of_cons in Hk as [Hne Hk].
  cbn [getitem]. rewrite decide_False by done. by apply IH.
Qed.

Lemma getitem_elem_of {V} (d : dict string V) k v : getitem d k = Some v -> (k, v) ∈ d.
Proof.
  induction d as [|[k' v'] d IH]; [done|].
  cbn [getitem]. destruct (decide (k = k')) as [->|Hne].
  - intros [= ->]. by left.
  - intros H. right. by apply IH.
Qed.

Lemma database_of_journal con w l j :
  database_of con (World (fs w) (memdb w) l j) = database_of con w.
Proof. by destruct con. Qed.

Lemma con_execute_create_fresh con table_name csv_path inferred db w :
  database_of con w = Some db ->
  fs w !! csv_path = Some (CsvFile inferred) ->
  db !! table_name = None ->
  con_execute con (CreateTableAsReadCsvAuto table_name csv_path) w
  = (inr [],
     set_database con (<[table_name := inferred]> db)
       (World (fs w) (memdb w) (log w)
          (journal w ++ [Execute con (sql_text (CreateTableAsReadCsvAuto table_name csv_path))]))).
Proof.
  intros Hdb Hcsv Hfresh. unfold con_execute, bind, record_event. cbn [fst snd].
  rewrite database_of_journal, Hdb. cbn [run_statement fs]. by rewrite Hcsv, Hfresh.
Qed.

(** An iteration on an entry whose file is a CSV file and whose table is
    not there: the table is created with the inferred columns. *)
Lemma load_step_creates con table_name csv_path inferred db w :
  database_of con w = Some db ->
  fs w !! csv_path = Some (CsvFile inferred) ->
  db !! table_name = None ->
  exists w',
    load_step con tt (table_name, csv_path) w = (inr tt, w')
    /\ database_of con w' = Some (<[table_name := inferred]> db)
    /\ (forall q, con <> FileCon q -> fs w' !! q = fs w !! q)
    /\ (forall n, con <> MemCon n -> memdb w' !! n = memdb w !! n)
    /\ length (memdb w') = length (memdb w).
Proof.
  intros Hdb Hcsv Hfresh. unfold load_step.
  rewrite (bind_inr _ _ _ _ _ (path_exists_some _ _ _ Hcsv)). cbn [negb].
  unfold logger_info. rewrite (bind_inr _ _ _ _ _ (logger_run _ _ _)).
  erewrite bind_inr; cycle 1.
  { apply (con_execute_create_fresh con table_name csv_path inferred db);
      [by rewrite database_of_journal | done | done]. }
  eexists. split; [reflexivity|].
  destruct con as [path|n]; cbn [set_database database_of logger fs memdb log journal snd].
  - split; [by rewrite lookup_insert_eq|]. split; [|done].
    intros q Hq. rewrite lookup_insert_ne; [done|congruence].
  - split; [|split; [done|split]].
    + apply list_lookup_insert_eq. by eapply lookup_lt_Some.
    + intros m Hm. rewrite list_lookup_insert_ne; [done|congruence].
    + by rewrite length_insert.
Qed.

Lemma loaded_columns_cons table_name csv_path xs files t :
  loaded_columns ((table_name, csv_path) :: xs) files t
  = if decide (t = table_name)
    then match files !! csv_path with
         | Some (CsvFile inferred) => Some inferred
         | _ => None
         end
    else loaded_columns xs files t.
Proof. unfold loaded_columns. cbn [getitem]. by destruct (decide (t = table_name)). Qed.

Lemma loaded_columns_frame xs files files' t :
  (forall p, p ∈ xs.*2 -> files' !! p = files !! p) ->
  loaded_columns xs files' t = loaded_columns xs files t.
Proof.
  intros Hframe. unfold loaded_columns.
  destruct (getitem xs t) as [p|] eqn:Hget; [|done].
  rewrite Hframe; [done|]. apply getitem_elem_of in Hget.
  by apply (list_elem_of_fmap_2 snd) in Hget.
Qed.

(** The loop on entries with distinct table names that are not in the
    database, each pointing at nothing or at a CSV file: it returns, and the
    database gains the table of every entry with a CSV file. *)
Lemma load_loop_creates con xs db w :
  database_of con w = Some db ->
  NoDup (keys xs) ->
  Forall (fun item =>
            db !! item.1 = None
            /\ (fs w !! item.2 = None \/ exists inferred, fs w !! item.2 = Some (CsvFile inferred)))
    xs ->
  exists w' db',
    for_in xs (load_step con) tt w = (inr tt, w')
    /\ database_of con w' = Some db'
    /\ (forall t, db' !! t = match loaded_columns xs (fs w) t with
                             | Some inferred => Some inferred
                             | None => db !! t
                             end)
    /\ (forall q, con <> FileCon q -> fs w' !! q = fs w !! q)
    /\ (forall n, con <> MemCon n -> memdb w' !! n = memdb w !! n)
    /\ length (memdb w') = length (memdb w).
Proof.
  revert db w. induction xs as [|[table_name csv_path] xs IH]; intros db w Hdb Hnd Hall.
  - exists w, db. by repeat split.
  - change (keys ((table_name, csv_path) :: xs)) with (table_name :: keys xs) in Hnd.
    apply NoDup_cons in Hnd as [Hfresh_key Hnd].
    apply Forall_cons in Hall as [[Hfresh Hfile] Hall]. cbn [fst snd] in Hfresh, Hfile.
    assert (forall p, fs w !! p = None \/ (exists inferred, fs w !! p = Some (CsvFile inferred)) ->
                      con <> FileCon p) as Hnotcon.
    { intros p Hp ->. cbn [database_of] in Hdb.
      destruct Hp as [Hp|[inferred Hp]]; rewrite Hp in Hdb; discriminate Hdb. }
    rewrite for_in_cons.
    destruct Hfile as [Hnone|[inferred Hcsv]].
    + rewrite (bind_inr _ _ _ _ _ (load_step_missing _ _ _ _ _ Hnone)).
      destruct (IH db
                  (World (fs w) (memdb w)
                     (log w ++ [(ERROR, "CSV file '" +:+ csv_path
                                          +:+ "' does not exist. Skipping table '"
                                          +:+ table_name +:+ "'.")])
                     (journal w)))
        as (w' & db' & Hrun & Hdb' & Htables & Hfs & Hmem & Hlen);
        [by rewrite database_of_journal | done | done |].
      exists w', db'. split; [done|]. split; [done|]. split; [|done].
      intros t. rewrite Htables, loaded_columns_cons, Hnone. cbn [fs].
      destruct (decide (t = table_name)) as [->|Hne]; [|done].
      unfold loaded_columns. by rewrite getitem_not_key.
    + destruct (load_step_creates con table_name csv_path inferred db w Hdb Hcsv Hfresh)
        as (w1 & Hstep & Hdb1 & Hfs1 & Hmem1 & Hlen1).
      rewrite (bind_inr _ _ _ _ _ Hstep).
      destruct (IH (<[table_name := inferred]> db) w1)
        as (w' & db' & Hrun & Hdb' & Htables & Hfs & Hmem & Hlen); [done|done| |].
      { rewrite Forall_forall in Hall. apply Forall_forall. intros [t p] Hin.
        destruct (Hall _ Hin) as [Ht Hp]. cbn [fst snd] in *. split.
        - rewrite lookup_insert_ne; [done|]. intros <-. apply Hfresh_key.
          by apply (list_elem_of_fmap_2 fst) in Hin.
        - by rewrite Hfs1 by (by apply Hnotcon). }
      exists w', db'. split; [done|]. split; [done|]. split; [|split; [|split]].
      * intros t. rewrite Htables, loaded_columns_cons, Hcsv.
        rewrite (loaded_columns_frame xs (fs w) (fs w1)).
        -- destruct (decide (t = table_name)) as [->|Hne].
           ++ unfold loaded_columns. rewrite getitem_not_key by done.
              by rewrite lookup_insert_eq.
           ++ destruct (loaded_columns xs (fs w) t); [done|].
              by rewrite lookup_insert_ne.
        -- intros p Hp. apply list_elem_of_fmap in Hp as ([t' p'] & -> & Hin).
           rewrite Forall_forall in Hall. destruct (Hall _ Hin) as [_ Hp'].
           by apply Hfs1, Hnotcon.
      * intros q Hq. by rewrite Hfs, Hfs1.
      * intros n Hn. by rewrite Hmem, Hmem1.
      * by rewrite Hlen, Hlen1.
Qed.

Lemma load_fresh_memory csv_files force w :
  PyDict.wf csv_files ->
  fs w !! ":memory:" = None ->
  Forall (fun item =>
            fs w !! item.2 = None \/ exists inferred, fs w !! item.2 = Some (CsvFile inferred))
    (items csv_files) ->
  exists w' db',
    load_csv_to_duckdb csv_files force ":memory:" w = (inr (MemCon (length (memdb w))), w')
    /\ memdb w' = memdb w ++ [db']
    /\ fs w' = fs w
    /\ (forall t, db' !! t = loaded_columns csv_files (fs w) t).
Proof.
  intros Hwf Hmem Hall. unfold items in Hall.
  destruct (load_loop_creates (MemCon (length (memdb w))) csv_files ∅
              (World (fs w) (memdb w ++ [∅])
                 (log w ++ [(INFO, "Connecting to DuckDB database at '" +:+ ":memory:"
                                     +:+ "'...")])
                 (journal w ++ [Connect ":memory:" false])))
    as (w' & db' & Hrun & Hdb' & Htables & Hfs & Hmemdb & Hlen).
  { cbn [database_of memdb]. by rewrite lookup_app_r, Nat.sub_diag. }
  { exact Hwf. }
  { eapply Forall_impl; [exact Hall|]. intros item Hitem. by split. }
  cbn [fs memdb] in *.
  exists w', db'. split; [|split; [|split]].
  - unfold load_csv_to_duckdb, logger_info.
    rewrite (bind_inr _ _ _ _ _ (logger_run _ _ _)).
    erewrite bind_inr by (apply path_exists_none; exact Hmem).
    change (false && negb force) with false. cbv iota.
    rewrite (bind_inr _ _ _ _ _ (duckdb_connect_memory _)).
    cbn [fs memdb log journal]. unfold items.
    by rewrite (bind_inr _ _ _ _ _ Hrun).
  - apply list_eq. intros n. destruct (decide (n = length (memdb w))) as [->|Hne].
    + cbn [database_of] in Hdb'. rewrite Hdb'.
      by rewrite lookup_app_r, Nat.sub_diag.
    + rewrite Hmemdb by congruence.
      destruct (decide (n < length (memdb w))%nat).
      * by rewrite !lookup_app_l.
      * rewrite !lookup_ge_None_2; [done| |].
        -- rewrite length_app. cbn. lia.
        -- rewrite length_app. cbn. lia.
  - apply map_eq. intros q. by apply Hfs.
  - intros t. rewrite Htables. rewrite lookup_empty.
    by destruct (loaded_columns csv_files (fs w) t).
Qed.

Lemma load_fresh_file csv_files force database_path w :
  database_path <> ":memory:" ->
  PyDict.wf csv_files ->
  fs w !! database_path = None ->
  Forall (fun item =>
            item.2 <> database_path
            /\ (fs w !! item.2 = None
                \/ exists inferred, fs w !! item.2 = Some (CsvFile inferred)))
    (items csv_files) ->
  exists w' db',
    load_csv_to_duckdb csv_files force database_path w = (inr (FileCon database_path), w')
    /\ fs w' = <[database_path := DuckDBFile db']> (fs w)
    /\ memdb w' = memdb w
    /\ (forall t, db' !! t = loaded_columns csv_files (fs w) t).
Proof.
  intros Hnotmem Hwf Hnone Hall. unfold items in Hall.
  destruct (load_loop_creates (FileCon database_path) csv_files ∅
              (World (<[database_path := DuckDBFile ∅]> (fs w)) (memdb w)
                 (log w ++ [(INFO, "Connecting to DuckDB database at '" +:+ database_path
                                     +:+ "'...")])
                 (journal w ++ [Connect database_path false])))
    as (w' & db' & Hrun & Hdb' & Htables & Hfs & Hmemdb & Hlen).
  { cbn [database_of fs]. by rewrite lookup_insert_eq. }
  { exact Hwf. }
  { eapply Forall_impl; [exact Hall|]. intros item [Hne Hitem]. split; [done|].
    cbn [fs]. by rewrite lookup_insert_ne. }
  cbn [fs memdb] in *.
  exists w', db'. split; [|split; [|split]].
  - unfold load_csv_to_duckdb, logger_info.
    rewrite (bind_inr _ _ _ _ _ (logger_run _ _ _)).
    erewrite bind_inr by (apply path_exists_none; exact Hnone).
    change (false && negb force) with false. cbv iota.
    erewrite bind_inr by (apply duckdb_connect_new; [exact Hnotmem | exact Hnone]).
    cbn [fs memdb log journal]. unfold items.
    by rewrite (bind_inr _ _ _ _ _ Hrun).
  - apply map_eq. intros q. destruct (decide (q = database_path)) as [->|Hne].
    + rewrite lookup_insert_eq. cbn [database_of] in Hdb'.
      destruct (fs w' !! database_path) as [[?|db'']|]; try done. by injection Hdb' as ->.
    + rewrite Hfs by congruence. by rewrite !lookup_insert_ne.
  - apply list_eq. intros n. by apply Hmemdb.
  - intros t. rewrite Htables, lookup_empty.
    rewrite (loaded_columns_frame csv_files (fs w)).
    + by destruct (loaded_columns csv_files (fs w) t).
    + intros p Hp. apply list_elem_of_fmap in Hp as ([t' p'] & -> & Hin).
      rewrite Forall_forall in Hall. destruct (Hall _ Hin) as [Hne _].
      by rewrite lookup_insert_ne.
Qed.

(** X1: on a path that holds no database yet, the loader returns a
    connection to a database that has exactly one table per entry whose
    source file is a CSV file, with the columns inferred from that file, and
    no other table.  The entries are those of a dict (distinct table names)
    of plain table names and plain CSV paths; each points at nothing or at a
    CSV file, and none at the database path itself, which is [":memory:"]
    or a [.duckdb] file in the working directory. *)
Theorem loader_creates_table_per_csv_file
    (csv_files : dict string string) (force : bool) (database_path : string) (w : world) :
  plain_mapping csv_files ->
  database_path = ":memory:" \/ plain_database_path database_path ->
  PyDict.wf csv_files ->
  fs w !! database_path = None ->
  Forall (fun item =>
            item.2 <> database_path
            /\ (fs w !! item.2 = None
                \/ exists inferred, fs w !! item.2 = Some (CsvFile inferred)))
    (items csv_files) ->
  exists con w' db',
    load_csv_to_duckdb csv_files force database_path w = (inr con, w')
    /\ database_of con w' = Some db'
    /\ (forall table,
          db' !! table
          = match getitem csv_files table with
            | Some csv_path =>
                match fs w !! csv_path with
                | Some (CsvFile inferred) => Some inferred
                | _ => None
                end
            | None => None
            end).
Proof.
  intros _ _ Hwf Hnone Hall.
  destruct (decide (database_path = ":memory:")) as [->|Hnotmem].
  - destruct (load_fresh_memory csv_files force w Hwf Hnone)
      as (w' & db' & Hrun & Hmemdb & _ & Htables).
    { eapply Forall_impl; [exact Hall|]. by intros item [_ ?]. }
    exists (MemCon (length (memdb w))), w', db'. split; [done|]. split; [|done].
    cbn [database_of]. by rewrite Hmemdb, lookup_app_r, Nat.sub_diag.
  - destruct (load_fresh_file csv_files force database_path w Hnotmem Hwf Hnone Hall)
      as (w' & db' & Hrun & Hfs & _ & Htables).
    exists (FileCon database_path), w', db'. split; [done|]. split; [|done].
    cbn [database_of]. by rewrite Hfs, lookup_insert_eq.
Qed.

Lemma loader_creates_table_per_csv_file_witness :
  exists con w' db',
    load_csv_to_duckdb [("dim_store", "data/dim_store.csv"); ("dim_time", "missing.csv")]
      false "new.duckdb" store_csv_world = (inr con, w')
    /\ database_of con w' = Some db'
    /\ (forall table,
          db' !! table
          = match getitem [("dim_store", "data/dim_store.csv"); ("dim_time", "missing.csv")]
                    table with
            | Some csv_path =>
                match fs store_csv_world !! csv_path with
                | Some (CsvFile inferred) => Some inferred
                | _ => None
                end
            | None => None
            end).
Proof.
  apply (loader_creates_table_per_csv_file
           [("dim_store", "data/dim_store.csv"); ("dim_time", "missing.csv")] false
           "new.duckdb" store_csv_world).
  - apply Forall_cons. split; [plain_entry ["data"; "dim_store"]|].
    apply Forall_cons. split; [plain_entry ["missing"]|constructor].
  - right. plain_path "new".
  - apply (bool_decide_unpack _). vm_compute. exact I.
  - vm_compute. reflexivity.
  - apply Forall_cons. split.
    { split; [discriminate|]. right. eexists. vm_compute. reflexivity. }
    apply Forall_cons. split; [|constructor].
    split; [discriminate|]. left. vm_compute. reflexivity.
Defined.

(** *** Statements that keep the tables of a database file *)

Lemma keeps_database_ret path {A} (x : A) : keeps_database path (ret x).
Proof. intros w db Hdb. by exists db. Qed.

Lemma keeps_database_raise path {A} e : keeps_database path (@raise A e).
Proof. intros w db Hdb. by exists db. Qed.

Lemma keeps_database_logger path lvl msg : keeps_database path (logger lvl msg).
Proof. intros w db Hdb. by exists db. Qed.

Lemma keeps_database_path_exists path p : keeps_database path (path_exists p).
Proof. intros w db Hdb. by exists db. Qed.

Lemma keeps_database_bind path {A B} (c : M A) (k : A -> M B) :
  keeps_database path c -> (forall x, keeps_database path (k x)) ->
  keeps_database path (bind c k).
Proof.
  intros Hc Hk w db Hdb. unfold bind.
  destruct (Hc w db Hdb) as (db1 & Hdb1 & Hsub1 & Hfs1 & Hmem1).
  destruct (c w) as [[e|x] w1]; cbn [snd] in *.
  - by exists db1.
  - destruct (Hk x w1 db1 Hdb1) as (db2 & Hdb2 & Hsub2 & Hfs2 & Hmem2).
    exists db2. split; [done|]. split; [by etrans|]. split.
    + intros p Hp. by rewrite Hfs2, Hfs1.
    + by rewrite Hmem2.
Qed.

Lemma keeps_database_bind_with path {A B} (P : A -> Prop) (c : M A) (k : A -> M B) :
  keeps_database path c ->
  (forall w x w', c w = (inr x, w') -> P x) ->
  (forall x, P x -> keeps_database path (k x)) ->
  keeps_database path (bind c k).
Proof.
  intros Hc HP Hk w db Hdb. unfold bind.
  destruct (Hc w db Hdb) as (db1 & Hdb1 & Hsub1 & Hfs1 & Hmem1).
  pose proof (HP w) as HPw.
  destruct (c w) as [[e|x] w1]; cbn [snd] in *.
  - by exists db1.
  - destruct (Hk x (HPw x w1 eq_refl) w1 db1 Hdb1) as (db2 & Hdb2 & Hsub2 & Hfs2 & Hmem2).
    exists db2. split; [done|]. split; [by etrans|]. split.
    + intros p Hp. by rewrite Hfs2, Hfs1.
    + by rewrite Hmem2.
Qed.

Lemma keeps_database_for_in path {A S} (body : S -> A -> M S) xs acc :
  (forall acc x, keeps_database path (body acc x)) ->
  keeps_database path (for_in xs body acc).
Proof.
  intros Hbody. revert acc. induction xs as [|x xs IH]; intros acc.
  - apply keeps_database_ret.
  - rewrite for_in_cons. apply keeps_database_bind; [apply Hbody | apply IH].
Qed.

Lemma keeps_database_connect path :
  path <> ":memory:" -> keeps_database path (duckdb_connect path false).
Proof.
  intros Hmem w db Hdb.
  rewrite (duckdb_connect_existing path db w Hmem Hdb). by exists db.
Qed.

Lemma keeps_database_con_execute path q :
  keeps_database path (con_execute (FileCon path) q).
Proof.
  intros w db Hdb. unfold con_execute, bind, record_event.
  cbn [fst snd database_of fs]. rewrite Hdb.
  destruct q as [table_name csv_path|table]; cbn [run_statement].
  - destruct (fs w !! csv_path) as [[inferred|?]|]; cbn [snd fs memdb];
      try (by exists db).
    destruct (db !! table_name) eqn:Hfresh; cbn [snd fs memdb set_database];
      [by exists db|].
    exists (<[table_name := inferred]> db). split; [by rewrite lookup_insert_eq|].
    split; [by apply insert_subseteq|]. split; [|done].
    intros p Hp. by rewrite lookup_insert_ne.
  - destruct (db !! table); cbn [snd fs memdb set_database]; [|by exists db].
    exists db. split; [by rewrite lookup_insert_eq|]. split; [done|]. split; [|done].
    intros p Hp. by rewrite lookup_insert_ne.
Qed.

Lemma keeps_database_load_step path acc item :
  keeps_database path (load_step (FileCon path) acc item).
Proof.
  destruct item as [table_name csv_path]. unfold load_step.
  apply keeps_database_bind; [apply keeps_database_path_exists|]. intros present.
  destruct present; cbn [negb].
  - apply keeps_database_bind; [apply keeps_database_logger|]. intros _.
    apply keeps_database_bind; [apply keeps_database_con_execute|]. intros _.
    apply keeps_database_logger.
  - apply keeps_database_logger.
Qed.

(** X2: the loader never drops, replaces or alters a table of an existing
    database file, and never touches a source file.  Whatever the force
    flag, for a mapping of plain table names and plain CSV paths, and
    whether the run returns or raises, the database file afterwards holds
    every table it held before, with the same columns; every plain CSV path
    holds what it held, and so do the in-memory databases. *)
Theorem loader_keeps_existing_tables
    (csv_files : dict string string) (force : bool) (database_path : string)
    (db : database) (w : world) :
  plain_mapping csv_files ->
  database_path <> ":memory:" ->
  fs w !! database_path = Some (DuckDBFile db) ->
  exists db',
    fs (load_csv_to_duckdb csv_files force database_path w).2 !! database_path
    = Some (DuckDBFile db')
    /\ (forall table columns, db !! table = Some columns -> db' !! table = Some columns)
    /\ (forall p, plain_csv_path p -> p <> database_path ->
          fs (load_csv_to_duckdb csv_files force database_path w).2 !! p = fs w !! p)
    /\ memdb (load_csv_to_duckdb csv_files force database_path w).2 = memdb w.
Proof.
  intros _ Hmem Hdb.
  assert (keeps_database database_path
            (load_csv_to_duckdb csv_files force database_path)) as Hkeeps.
  { unfold load_csv_to_duckdb.
    apply keeps_database_bind; [apply keeps_database_logger|]. intros _.
    apply keeps_database_bind; [apply keeps_database_path_exists|]. intros present.
    destruct (present && negb force).
    - apply keeps_database_bind; [apply keeps_database_logger|]. intros _.
      by apply keeps_database_connect.
    - apply (keeps_database_bind_with _ (fun con => con = FileCon database_path));
        [by apply keeps_database_connect | |].
      + intros w0 con w1 Hcon. by apply (duckdb_connect_file _ _ _ _ Hmem Hcon).
      + intros con ->.
        apply keeps_database_bind; [|intros _; apply keeps_database_ret].
        apply keeps_database_for_in. intros acc item.
        apply keeps_database_load_step. }
  destruct (Hkeeps w db Hdb) as (db' & Hdb' & Hsub & Hfs & Hmemdb).
  exists db'. split; [done|]. split; [|split; [|done]].
  - intros table columns Htable. by eapply lookup_weaken.
  - intros p _ Hp. by apply Hfs.
Qed.

Lemma loader_keeps_existing_tables_witness :
  exists db',
    fs (load_csv_to_duckdb
          [("dim_store", "data/dim_store.csv"); ("fact_sales", "data/dim_store.csv")]
          true "data/sales.duckdb" sales_world).2 !! "data/sales.duckdb"
    = Some (DuckDBFile db')
    /\ (forall table columns,
          sales_database !! table = Some columns -> db' !! table = Some columns)
    /\ (forall p, plain_csv_path p -> p <> "data/sales.duckdb" ->
          fs (load_csv_to_duckdb
                [("dim_store", "data/dim_store.csv"); ("fact_sales", "data/dim_store.csv")]
                true "data/sales.duckdb" sales_world).2 !! p
          = fs sales_world !! p)
    /\ memdb (load_csv_to_duckdb
                [("dim_store", "data/dim_store.csv"); ("fact_sales", "data/dim_store.csv")]
                true "data/sales.duckdb" sales_world).2
       = memdb sales_world.
Proof.
  apply (loader_keeps_existing_tables
           [("dim_store", "data/dim_store.csv"); ("fact_sales", "data/dim_store.csv")]
           true "data/sales.duckdb" sales_database sales_world).
  - apply Forall_cons. split; [plain_entry ["data"; "dim_store"]|].
    apply Forall_cons. split; [plain_entry ["data"; "dim_store"]|constructor].
  - discriminate.
  - vm_compute. reflexivity.
Defined.

Lemma loader_forced_reload_raises_witness :
  exists msg w2,
    load_csv_to_duckdb [("dim_time", "missing.csv"); ("dim_store", "data/dim_store.csv")]
      true "sales.duckdb"
      (load_csv_to_duckdb [("dim_time", "missing.csv"); ("dim_store", "data/dim_store.csv")]
         true "sales.duckdb" store_csv_world).2
    = (inl (CatalogException msg), w2).
Proof.
  apply (loader_forced_reload_raises
           [("dim_time", "missing.csv"); ("dim_store", "data/dim_store.csv")]
           "sales.duckdb" store_csv_world _ (FileCon "sales.duckdb")).
  - apply Forall_cons. split; [plain_entry ["missing"]|].
    apply Forall_cons. split; [plain_entry ["data"; "dim_store"]|constructor].
  - plain_path "sales".
  - intros db Hdb. vm_compute in Hdb. discriminate Hdb.
  - discriminate.
  - apply Exists_cons. right. apply Exists_cons. left. vm_compute. eauto.
  - vm_compute. reflexivity.
Defined.

(** X4: with the in-memory path every run gets a database of its own.  A
    second run returns (it does not meet the tables of the first), its
    database holds the same tables as the first run's, and the first run's
    database is left as it was.  The mapping is one of plain table names and
    plain CSV paths. *)
Theorem loader_in_memory_runs_are_independent
    (csv_files : dict string string) (force : bool) (w : world) :
  plain_mapping csv_files ->
  PyDict.wf csv_files ->
  fs w !! ":memory:" = None ->
  Forall (fun item =>
            fs w !! item.2 = None \/ exists inferred, fs w !! item.2 = Some (CsvFile inferred))
    (items csv_files) ->
  exists w1 w2 db',
    load_csv_to_duckdb csv_files force ":memory:" w
    = (inr (MemCon (length (memdb w))), w1)
    /\ load_csv_to_duckdb csv_files force ":memory:" w1
       = (inr (MemCon (S (length (memdb w)))), w2)
    /\ database_of (MemCon (length (memdb w))) w1 = Some db'
    /\ database_of (MemCon (length (memdb w))) w2 = Some db'
    /\ database_of (MemCon (S (length (memdb w)))) w2 = Some db'
    /\ (forall table,
          db' !! table
          = match getitem csv_files table with
            | Some csv_path =>
                match fs w !! csv_path with
                | Some (CsvFile inferred) => Some inferred
                | _ => None
                end
            | None => None
            end).
Proof.
  intros _ Hwf Hnone Hall.
  destruct (load_fresh_memory csv_files force w Hwf Hnone Hall)
    as (w1 & db1 & Hrun1 & Hmem1 & Hfs1 & Htables1).
  destruct (load_fresh_memory csv_files force w1 Hwf)
    as (w2 & db2 & Hrun2 & Hmem2 & Hfs2 & Htables2).
  { by rewrite Hfs1. }
  { by rewrite Hfs1. }
  assert (db2 = db1) as ->.
  { apply map_eq. intros t. by rewrite Htables1, Htables2, Hfs1. }
  assert (length (memdb w1) = S (length (memdb w))) as Hlen
    by (rewrite Hmem1, length_app; cbn; lia).
  rewrite Hlen in Hrun2.
  exists w1, w2, db1. split; [done|]. split; [done|].
  cbn [database_of]. rewrite Hmem2, Hmem1. split; [|split; [|split; [|done]]].
  - by rewrite lookup_app_r, Nat.sub_diag.
  - rewrite lookup_app_l by (rewrite length_app; cbn; lia).
    by rewrite lookup_app_r, Nat.sub_diag.
  - rewrite lookup_app_r by (rewrite length_app; cbn; lia).
    rewrite length_app. cbn [length].
    by replace (S (length (memdb w)) - (length (memdb w) + 1)) with 0 by lia.
Qed.

Lemma loader_in_memory_runs_are_independent_witness :
  exists w1 w2 db',
    load_csv_to_duckdb [("dim_store", "data/dim_store.csv")] true ":memory:" store_csv_world
    = (inr (MemCon (length (memdb store_csv_world))), w1)
    /\ load_csv_to_duckdb [("dim_store", "data/dim_store.csv")] true ":memory:" w1
       = (inr (MemCon (S (length (memdb store_csv_world)))), w2)
    /\ database_of (MemCon (length (memdb store_csv_world))) w1 = Some db'
    /\ database_of (MemCon (length (memdb store_csv_world))) w2 = Some db'
    /\ database_of (MemCon (S (length (memdb store_csv_world)))) w2 = Some db'
    /\ (forall table,
          db' !! table
          = match getitem [("dim_store", "data/dim_store.csv")] table with
            | Some csv_path =>
                match fs store_csv_world !! csv_path with
                | Some (CsvFile inferred) => Some inferred
                | _ => None
                end
            | None => None
            end).
Proof.
  apply (loader_in_memory_runs_are_independent
           [("dim_store", "data/dim_store.csv")] true store_csv_world).
  - apply Forall_cons. split; [plain_entry ["data"; "dim_store"]|constructor].
  - apply (bool_decide_unpack _). vm_compute. exact I.
  - vm_compute. reflexivity.
  - apply Forall_cons. split; [|constructor].
    right. eexists. vm_compute. reflexivity.
Defined.

(** ** Bridge Synthesizer: what schema inference returns and what it leaves *)

Lemma setitem_fresh {V} (d : dict string V) k v :
  k ∉ keys d -> setitem d k v = d ++ [(k, v)].
Proof.
  induction d as [|[k' v'] d IH]; intros Hk; [done|].
  change (keys ((k', v') :: d)) with (k' :: keys d) in Hk.
  apply not_elem_of_cons in Hk as [Hne Hk].
  cbn [setitem]. rewrite decide_False by done. by rewrite IH.
Qed.

(** A comprehension over distinct keys is the list of its items. *)
Lemma comprehension_NoDup {A V} (key : A -> string) (value : A -> V) xs :
  NoDup (key <$> xs) ->
  comprehension key value xs = (fun x => (key x, value x)) <$> xs.
Proof.
  unfold comprehension. induction xs as [|x xs IH] using rev_ind; intros Hnd; [done|].
  rewrite fmap_app in Hnd. apply NoDup_app in Hnd as (Hnd & Hx & _).
  rewrite foldl_app, fmap_app, IH by done. cbn [foldl fmap list_fmap].
  apply setitem_fresh. unfold keys. rewrite <- list_fmap_compose.
  intros Hin. apply (Hx _ Hin). by left.
Qed.

Lemma table_info_names columns : col_1 <$> table_info columns = columns.*1.
Proof.
  unfold table_info. rewrite fmap_imap, <- imap_const.
  apply imap_ext. by intros i [name type] _.
Qed.

Lemma table_info_items columns :
  (fun col => (col_1 col, col_2 col)) <$> table_info columns = columns.
Proof.
  unfold table_info. rewrite fmap_imap.
  rewrite <- (list_fmap_id columns) at 2. rewrite <- imap_const.
  apply imap_ext. by intros i [name type] _.
Qed.

(** The dict built from the rows of [PRAGMA table_info] is the declared
    column list, when the column names are distinct. *)
Lemma comprehension_table_info columns :
  NoDup columns.*1 ->
  comprehension col_1 col_2 (table_info columns) = columns.
Proof.
  intros Hnd. rewrite comprehension_NoDup by (by rewrite table_info_names).
  apply table_info_items.
Qed.

Lemma con_execute_pragma_missing con table db w :
  database_of con w = Some db ->
  db !! table = None ->
  exists msg w',
    con_execute con (PragmaTableInfo table) w = (inl (CatalogException msg), w').
Proof.
  intros Hdb Htable. unfold con_execute, bind, record_event. cbn [fst snd].
  rewrite database_of_journal, Hdb. cbn [run_statement]. rewrite Htable. by eexists _, _.
Qed.

Lemma infer_loop_world con db tables acc w :
  database_of con w = Some db ->
  Forall (fun table => is_Some (db !! table)) tables ->
  for_in tables (infer_step con) acc w
  = (inr (foldl
            (fun schemas table =>
               setitem schemas table
                 (comprehension col_1 col_2 (table_info (default [] (db !! table)))))
            acc tables),
     World (fs w) (memdb w) (log w)
       (journal w
          ++ ((fun table => Execute con ("PRAGMA table_info(" +:+ table +:+ ")"))
                <$> tables))).
Proof.
  intros Hdb Hall. revert acc w Hdb.
  induction Hall as [|table tables [columns Htable] Hall IH]; intros acc w Hdb.
  - cbn. rewrite app_nil_r. by destruct w.
  - rewrite for_in_cons. unfold infer_step at 1.
    rewrite bind_assoc.
    rewrite (bind_inr _ _ _ _ _ (con_execute_pragma _ _ _ _ _ Hdb Htable)).
    unfold bind at 1. cbn [ret]. rewrite IH by (by rewrite database_of_journal).
    cbn [foldl fmap list_fmap fs memdb log journal]. rewrite Htable. cbn [default].
    by rewrite <- app_assoc.
Qed.

Lemma infer_loop_raises con db tables acc w :
  database_of con w = Some db ->
  Exists (fun table => db !! table = None) tables ->
  exists msg w',
    for_in tables (infer_step con) acc w = (inl (CatalogException msg), w').
Proof.
  intros Hdb Hex. revert acc w Hdb.
  induction tables as [|table tables IH]; intros acc w Hdb;
    [by apply Exists_nil in Hex|].
  rewrite for_in_cons. unfold infer_step at 1.
  destruct (db !! table) as [columns|] eqn:Htable.
  - rewrite bind_assoc.
    rewrite (bind_inr _ _ _ _ _ (con_execute_pragma _ _ _ _ _ Hdb Htable)).
    unfold bind at 1. cbn [ret]. apply IH.
    + apply Exists_cons in Hex as [Hhead|Hex]; [congruence|done].
    + by rewrite database_of_journal.
  - destruct (con_execute_pragma_missing con table db w Hdb Htable) as (msg & w' & Hrun).
    exists msg, w'. rewrite bind_assoc. by rewrite (bind_inl _ _ _ _ _ Hrun).
Qed.

(** The first statements of schema inference on an existing database file. *)
Lemma infer_prefix tables database_path db w :
  database_path <> ":memory:" ->
  fs w !! database_path = Some (DuckDBFile db) ->
  infer_schemas_and_generate_puppini_bridge_sql tables database_path w
  = bind (for_in tables (infer_step (FileCon database_path)) [])
      (fun schemas => ret (FileCon database_path, schemas))
      (World (fs w) (memdb w)
         (log w ++ [(INFO, "Database file '" +:+ database_path +:+ "' exists.");
                    (INFO, "Connecting to DuckDB database at '" +:+ database_path +:+ "'...")])
         (journal w ++ [Connect database_path false])).
Proof.
  intros Hmem Hfile. unfold infer_schemas_and_generate_puppini_bridge_sql.
  rewrite (bind_inr _ _ _ _ _ (path_exists_some _ _ _ Hfile)).
  cbn [negb]. unfold logger_info.
  rewrite (bind_inr _ _ _ _ _ (logger_run _ _ _)).
  rewrite (bind_inr _ _ _ _ _ (logger_run _ _ _)).
  erewrite bind_inr by (by apply (duckdb_connect_existing database_path db)).
  cbn [fs memdb log journal]. by rewrite <- app_assoc.
Qed.

(** X5: a listed table that the database does not have makes schema
    inference raise the engine's catalog error: nothing catches it and no
    schema map is returned, whatever the other tables are.  The listed
    names and the names of the database's tables are plain, so that a name
    the database does not have as written is a table it does not have. *)
Theorem infer_missing_table_raises
    (tables : list string) (database_path : string) (db : database) (w : world) :
  Forall plain_table_name tables ->
  plain_database db ->
  database_path <> ":memory:" ->
  fs w !! database_path = Some (DuckDBFile db) ->
  Exists (fun table => db !! table = None) tables ->
  exists msg w',
    infer_schemas_and_generate_puppini_bridge_sql tables database_path w
    = (inl (CatalogException msg), w').
Proof.
  intros _ _ Hmem Hfile Hex. rewrite (infer_prefix tables database_path db w Hmem Hfile).
  edestruct (infer_loop_raises (FileCon database_path) db tables []) as (msg & w' & Hrun);
    [|exact Hex|].
  2: { exists msg, w'. by rewrite (bind_inl _ _ _ _ _ Hrun). }
  cbn [database_of fs]. by rewrite Hfile.
Qed.

Lemma infer_missing_table_raises_witness :
  exists msg w',
    infer_schemas_and_generate_puppini_bridge_sql ["fact_sales"; "dim_customer"; "dim_product"]
      "data/sales.duckdb" sales_world
    = (inl (CatalogException msg), w').
Proof.
  apply (infer_missing_table_raises ["fact_sales"; "dim_customer"; "dim_product"]
           "data/sales.duckdb" sales_database sales_world).
  - apply (bool_decide_unpack _). vm_compute. exact I.
  - apply (bool_decide_unpack _). vm_compute. exact I.
  - discriminate.
  - vm_compute. reflexivity.
  - apply Exists_cons. right. apply Exists_cons. left. vm_compute. reflexivity.
Defined.

(** Schema inference on a database file that holds every listed table. *)
Lemma infer_existing_run tables database_path db w :
  database_path <> ":memory:" ->
  fs w !! database_path = Some (DuckDBFile db) ->
  Forall (fun table => is_Some (db !! table)) tables ->
  infer_schemas_and_generate_puppini_bridge_sql tables database_path w
  = (inr (FileCon database_path,
          comprehension id
            (fun table => comprehension col_1 col_2 (table_info (default [] (db !! table))))
            tables),
     World (fs w) (memdb w)
       (log w ++ [(INFO, "Database file '" +:+ database_path +:+ "' exists.");
                  (INFO, "Connecting to DuckDB database at '" +:+ database_path +:+ "'...")])
       (journal w ++ Connect database_path false
          :: ((fun table =>
                 Execute (FileCon database_path) ("PRAGMA table_info(" +:+ table +:+ ")"))
                <$> tables))).
Proof.
  intros Hmem Hfile Hall.
  rewrite (infer_prefix tables database_path db w Hmem Hfile).
  erewrite bind_inr; cycle 1.
  { apply (infer_loop_world (FileCon database_path) db); [|exact Hall].
    cbn [database_of fs]. by rewrite Hfile. }
  unfold ret. cbn [fs memdb log journal]. by rewrite <- app_assoc.
Qed.

Lemma inferred_schemas_declared (db : database) tables :
  Forall (fun table => exists columns, db !! table = Some columns /\ NoDup columns.*1)
    tables ->
  Forall (fun item : string * dict string string => db !! item.1 = Some (items item.2))
    (comprehension id
       (fun table => comprehension col_1 col_2 (table_info (default [] (db !! table))))
       tables).
Proof.
  intros Hall.
  apply (foldl_setitem_Forall
           (fun item : string * dict string string => db !! item.1 = Some (items item.2))
           id); [constructor|].
  eapply Forall_impl; [exact Hall|]. intros table (columns & Htable & Hnd).
  cbn [fst snd id]. rewrite Htable. cbn [default]. unfold items.
  by rewrite comprehension_table_info.
Qed.



(** *** Statements that change no file and no database *)

Lemma read_only_ret {A} (x : A) : read_only (ret x).
Proof. by intros w. Qed.

Lemma read_only_raise {A} e : read_only (@raise A e).
Proof. by intros w. Qed.

Lemma read_only_logger lvl msg : read_only (logger lvl msg).
Proof. by intros w. Qed.

Lemma read_only_record_event e : read_only (record_event e).
Proof. by intros w. Qed.

Lemma read_only_bind {A B} (c : M A) (k : A -> M B) :
  read_only c -> (forall x, read_only (k x)) -> read_only (bind c k).
Proof.
  intros Hc Hk w. unfold bind. destruct (Hc w) as [Hf Hm].
  destruct (c w) as [[e|x] w1]; cbn [snd] in *; [done|].
  destruct (Hk x w1) as [Hf' Hm']. by rewrite Hf', Hm'.
Qed.

Lemma read_only_for_in {A S} (body : S -> A -> M S) xs acc :
  (forall acc x, read_only (body acc x)) -> read_only (for_in xs body acc).
Proof.
  intros Hbody. revert acc. induction xs as [|x xs IH]; intros acc.
  - apply read_only_ret.
  - rewrite for_in_cons. apply read_only_bind; [apply Hbody | apply IH].
Qed.

Lemma read_only_pragma con table : read_only (con_execute con (PragmaTableInfo table)).
Proof.
  apply read_only_bind; [apply read_only_record_event|]. intros _ w.
  destruct (database_of con w) as [db|] eqn:Hdb; [|done].
  cbn [run_statement]. destruct (db !! table); [|done].
  cbn [snd]. by rewrite set_database_id.
Qed.

Lemma read_only_infer_step con schemas table : read_only (infer_step con schemas table).
Proof.
  unfold infer_step. apply read_only_bind; [apply read_only_pragma|].
  intros columns. apply read_only_ret.
Qed.

(** X7: schema inference reads and never writes.  On any path but
    [":memory:"], for any list of plain table names and whether it returns
    or raises, it leaves every file and every database as it was; in
    particular it does not create a database where none exists. *)
Theorem infer_changes_no_file_or_table
    (tables : list string) (database_path : string) (w : world) :
  Forall plain_table_name tables ->
  database_path <> ":memory:" ->
  fs (infer_schemas_and_generate_puppini_bridge_sql tables database_path w).2 = fs w
  /\ memdb (infer_schemas_and_generate_puppini_bridge_sql tables database_path w).2
     = memdb w.
Proof.
  intros _ Hmem. destruct (fs w !! database_path) as [[inferred|db]|] eqn:Hfile.
  - unfold infer_schemas_and_generate_puppini_bridge_sql.
    rewrite (bind_inr _ _ _ _ _ (path_exists_some _ _ _ Hfile)).
    cbn [negb]. unfold logger_info.
    rewrite (bind_inr _ _ _ _ _ (logger_run _ _ _)).
    rewrite (bind_inr _ _ _ _ _ (logger_run _ _ _)).
    erewrite bind_inl; cycle 1.
    { unfold duckdb_connect, bind, record_event. cbn [fst snd fs].
      rewrite decide_False by done. rewrite Hfile. reflexivity. }
    done.
  - rewrite (infer_prefix tables database_path db w Hmem Hfile).
    match goal with
    | |- context [bind ?c ?k ?w0] =>
        assert (read_only (bind c k)) as Hro;
          [|exact (Hro w0)]
    end.
    apply read_only_bind; [|intros schemas; apply read_only_ret].
    apply read_only_for_in, read_only_infer_step.
  - unfold infer_schemas_and_generate_puppini_bridge_sql.
    by rewrite (bind_inr _ _ _ _ _ (path_exists_none _ _ Hfile)).
Qed.

Lemma infer_changes_no_file_or_table_witness :
  fs (infer_schemas_and_generate_puppini_bridge_sql ["fact_sales"; "dim_customer"]
        "data/sales.duckdb" sales_world).2 = fs sales_world
  /\ memdb (infer_schemas_and_generate_puppini_bridge_sql ["fact_sales"; "dim_customer"]
              "data/sales.duckdb" sales_world).2 = memdb sales_world.
Proof.
  apply (infer_changes_no_file_or_table ["fact_sales"; "dim_customer"]
           "data/sales.duckdb" sales_world).
  - apply (bool_decide_unpack _). vm_compute. exact I.
  - discriminate.
Defined.

(** ** Loading, then inferring *)

Lemma getitem_of_elem {V} (d : dict string V) k v :
  PyDict.wf d -> (k, v) ∈ d -> getitem d k = Some v.
Proof.
  unfold PyDict.wf. induction d as [|[k' v'] d IH]; intros Hnd Hin;
    [by apply elem_of_nil in Hin|].
  change (keys ((k', v') :: d)) with (k' :: keys d) in Hnd.
  apply NoDup_cons in Hnd as [Hk' Hnd]. cbn [getitem].
  apply elem_of_cons in Hin as [[= -> ->]|Hin]; [by rewrite decide_True|].
  rewrite decide_False; [by apply IH|].
  intros ->. apply Hk'. by apply (list_elem_of_fmap_2 fst) in Hin.
Qed.

Lemma Forall2_same_keys {V W} (l : dict string V) (k : dict string W)
    (P : string * V -> Prop) (Q : string * W -> Prop) :
  keys k = keys l -> Forall P l -> Forall Q k ->
  Forall2 (fun a b => b.1 = a.1 /\ P a /\ Q b) l k.
Proof.
  revert k. induction l as [|a l IH]; intros [|b k] Hkeys HP HQ;
    try discriminate Hkeys; [constructor|].
  injection Hkeys as Hhead Hkeys.
  apply Forall_cons in HP as [Ha HP]. apply Forall_cons in HQ as [Hb HQ].
  constructor; [done|]. by apply IH.
Qed.

(** X10: loading and inferring compose to a round trip.  After the loader
    has filled a new database file from a mapping whose files are all CSV
    files, schema inference on the mapping's table names returns, entry by
    entry and in the mapping's order, each table with exactly the columns
    (names, types, order) inferred from its CSV file.  The mapping is one of
    plain table names and plain CSV paths, the database a [.duckdb] file in
    the working directory. *)
Theorem load_then_infer_round_trip
    (csv_files : dict string string) (force : bool) (database_path : string) (w : world) :
  plain_mapping csv_files ->
  plain_database_path database_path ->
  database_path <> ":memory:" ->
  PyDict.wf csv_files ->
  fs w !! database_path = None ->
  Forall (fun item =>
            item.2 <> database_path
            /\ exists inferred, fs w !! item.2 = Some (CsvFile inferred) /\ NoDup inferred.*1)
    (items csv_files) ->
  exists w1 schemas w2,
    load_csv_to_duckdb csv_files force database_path w = (inr (FileCon database_path), w1)
    /\ infer_schemas_and_generate_puppini_bridge_sql (keys csv_files) database_path w1
       = (inr (FileCon database_path, schemas), w2)
    /\ Forall2 (fun item entry =>
                  entry.1 = item.1 /\ fs w !! item.2 = Some (CsvFile (items entry.2)))
         (items csv_files) (items schemas).
Proof.
  intros _ _ Hmem Hwf Hnone Hall. unfold items in *.
  destruct (load_fresh_file csv_files force database_path w Hmem Hwf Hnone)
    as (w1 & db' & Hload & Hfs1 & _ & Htables).
  { eapply Forall_impl; [exact Hall|]. intros item (Hne & inferred & Hcsv & _).
    split; [done|]. right. by exists inferred. }
  assert (Forall (fun item : string * string =>
                    exists inferred,
                      fs w !! item.2 = Some (CsvFile inferred)
                      /\ db' !! item.1 = Some inferred /\ NoDup inferred.*1)
            csv_files) as Hloaded.
  { apply Forall_forall. intros [t p] Hin. rewrite Forall_forall in Hall.
    destruct (Hall _ Hin) as (_ & inferred & Hcsv & Hnd). cbn [fst snd] in *.
    exists inferred. split; [done|]. split; [|done].
    rewrite Htables. unfold loaded_columns.
    by rewrite (getitem_of_elem csv_files t p Hwf Hin), Hcsv. }
  assert (Forall (fun table => exists columns, db' !! table = Some columns /\ NoDup columns.*1)
            (keys csv_files)) as Hdeclared.
  { unfold keys. apply Forall_fmap. eapply Forall_impl; [exact Hloaded|].
    intros item (inferred & _ & Hdb & Hnd). by exists inferred. }
  pose proof (infer_existing_run (keys csv_files) database_path db' w1 Hmem) as Hinfer.
  rewrite Hfs1, lookup_insert_eq in Hinfer. specialize (Hinfer eq_refl).
  rewrite <- Hfs1 in Hinfer.
  specialize (Hinfer ltac:(eapply Forall_impl; [exact Hdeclared|];
                           intros table (columns & -> & _); by eexists)).
  set (schemas := comprehension id
                    (fun table =>
                       comprehension col_1 col_2 (table_info (default [] (db' !! table))))
                    (keys csv_files)) in *.
  assert (keys schemas = first_seen (keys csv_files)) as Hkeys
    by (unfold schemas; by rewrite keys_comprehension, list_fmap_id).
  pose proof (inferred_schemas_declared db' (keys csv_files) Hdeclared) as Hschemas.
  fold schemas in Hschemas.
  rewrite first_seen_NoDup in Hkeys by exact Hwf.
  eexists w1, schemas, _. split; [done|]. split; [exact Hinfer|].
  eapply Forall2_impl.
  - apply (Forall2_same_keys csv_files schemas _ _ Hkeys Hloaded Hschemas).
  - intros [t p] [t' columns]. cbn [fst snd items].
    intros (-> & (inferred & Hcsv & Hdb & _) & Hentry).
    split; [done|]. rewrite Hcsv. rewrite Hdb in Hentry. by injection Hentry as ->.
Qed.

Lemma load_then_infer_round_trip_witness :
  exists w1 schemas w2,
    load_csv_to_duckdb [("dim_store", "data/dim_store.csv")] false "new.duckdb"
      store_csv_world = (inr (FileCon "new.duckdb"), w1)
    /\ infer_schemas_and_generate_puppini_bridge_sql
         (keys [("dim_store", "data/dim_store.csv")]) "new.duckdb" w1
       = (inr (FileCon "new.duckdb", schemas), w2)
    /\ Forall2 (fun item entry =>
                  entry.1 = item.1
                  /\ fs store_csv_world !! item.2 = Some (CsvFile (items entry.2)))
         (items [("dim_store", "data/dim_store.csv")]) (items schemas).
Proof.
  apply (load_then_infer_round_trip [("dim_store", "data/dim_store.csv")] false
           "new.duckdb" store_csv_world).
  - apply Forall_cons. split; [plain_entry ["data"; "dim_store"]|constructor].
  - plain_path "new".
  - discriminate.
  - apply (bool_decide_unpack _). vm_compute. exact I.
  - vm_compute. reflexivity.
  - apply Forall_cons. split; [|constructor]. split; [discriminate|].
    eexists. split; [vm_compute; reflexivity|].
    apply (bool_decide_unpack _). vm_compute. exact I.
Defined.

(** ** Diagram Generator: connection and entry point *)

Lemma read_only_connect_read_only database_path :
  read_only (duckdb_connect database_path true).
Proof.
  apply read_only_bind; [apply read_only_record_event|]. intros _ w.
  destruct (decide (database_path = ":memory:")); [done|].
  by destruct (fs w !! database_path) as [[?|?]|].
Qed.

Lemma duckdb_connect_read_only_missing database_path w :
  fs w !! database_path = None ->
  exists e w', duckdb_connect database_path true w = (inl e, w').
Proof.
  intros Hnone. unfold duckdb_connect, bind, record_event. cbn [fst snd fs].
  destruct (decide (database_path = ":memory:")); [by eexists _, _|].
  rewrite Hnone. by eexists _, _.
Qed.

Lemma read_only_con_execute_catalog {A} con query (answer : database -> list A) :
  read_only (Erd.con_execute_catalog con query answer).
Proof.
  apply read_only_bind; [apply read_only_record_event|]. intros _ w.
  by destruct (database_of con w).
Qed.

Lemma read_only_render str_lower table_columns foreign_keys :
  read_only (generate_mermaid_erd str_lower table_columns foreign_keys).
Proof.
  unfold generate_mermaid_erd.
  apply read_only_bind; [apply read_only_logger|]. intros _.
  apply read_only_bind.
  { apply read_only_for_in. intros tables [[table column] data_type].
    unfold erd_group_step, list_append_at.
    destruct (getitem _ table); [apply read_only_ret | apply read_only_raise]. }
  intros tables. apply read_only_bind.
  { apply read_only_for_in. intros lines [table columns]. apply read_only_ret. }
  intros lines. apply read_only_bind; [apply read_only_logger|]. intros _.
  apply read_only_bind; [|intros; apply read_only_ret].
  apply read_only_for_in. intros acc [[[from_table from_column] to_table] to_column].
  apply read_only_ret.
Qed.

(** X11: generating the diagram reads and never writes.  Whatever the path
    and the catalog, and whether it returns or raises,
    [generate_mermaid_erd(database_path)] leaves every file and every
    database as it was; on a path that holds nothing it raises instead of
    creating a database there. *)
Theorem erd_generation_changes_nothing
    (str_lower : string -> string)
    (information_schema_columns : database -> list (string * string * string))
    (foreign_key_rows : database -> list (string * string * string * string))
    (database_path : string) (w : world) :
  fs (Erd.generate_mermaid_erd str_lower information_schema_columns foreign_key_rows
        database_path w).2 = fs w
  /\ memdb (Erd.generate_mermaid_erd str_lower information_schema_columns foreign_key_rows
              database_path w).2 = memdb w
  /\ (fs w !! database_path = None ->
      exists e,
        outcome (Erd.generate_mermaid_erd str_lower information_schema_columns foreign_key_rows
                   database_path) w = inl e).
Proof.
  split; [|split].
  1, 2: revert w;
    assert (read_only (Erd.generate_mermaid_erd str_lower information_schema_columns
                         foreign_key_rows database_path)) as Hro;
    [|intros w; apply Hro].
  1, 2: unfold Erd.generate_mermaid_erd;
    apply read_only_bind; [apply read_only_logger|]; intros _;
    apply read_only_bind; [apply read_only_connect_read_only|]; intros con;
    apply read_only_bind; [apply read_only_logger|]; intros _;
    apply read_only_bind; [apply read_only_con_execute_catalog|]; intros table_columns;
    apply read_only_bind; [apply read_only_logger|]; intros _;
    apply read_only_bind; [apply read_only_con_execute_catalog|]; intros foreign_keys;
    apply read_only_render.
  intros Hnone. unfold outcome, Erd.generate_mermaid_erd, logger_info.
  rewrite (bind_inr _ _ _ _ _ (logger_run _ _ _)).
  edestruct (duckdb_connect_read_only_missing database_path) as (e & w' & Hcon);
    [|exists e; by rewrite (bind_inl _ _ _ _ _ Hcon)].
  exact Hnone.
Qed.

Lemma erd_generation_changes_nothing_witness :
  exists e,
    outcome (Erd.generate_mermaid_erd ascii_lowercase (fun _ => []) (fun _ => []) "data/sales.duckdb")
      store_csv_world = inl e.
Proof.
  apply (erd_generation_changes_nothing ascii_lowercase (fun _ => []) (fun _ => []) "data/sales.duckdb"
           store_csv_world).
  vm_compute. reflexivity.
Defined.

Lemma xbind_inr {A B} (c : MX A) (k : A -> MX B) s x s' :
  c s = (inr x, s') -> xbind c k s = k x s'.
Proof. intros H. unfold xbind. by rewrite H. Qed.

Lemma lift_inr {A} (c : M A) w o x w' :
  c w = (inr x, w') -> lift c (w, o) = (inr x, (w', o)).
Proof. intros H. unfold lift. cbn [fst snd]. by rewrite H. Qed.

Lemma duckdb_connect_existing_read_only database_path db w :
  database_path <> ":memory:" ->
  fs w !! database_path = Some (DuckDBFile db) ->
  duckdb_connect database_path true w
  = (inr (FileCon database_path),
     World (fs w) (memdb w) (log w) (journal w ++ [Connect database_path true])).
Proof.
  intros Hmem Hfile. unfold duckdb_connect, bind, record_event. simpl.
  rewrite decide_False by done. by rewrite Hfile.
Qed.

Lemma con_execute_catalog_run {A} con query (answer : database -> list A) db w :
  database_of con w = Some db ->
  Erd.con_execute_catalog con query answer w
  = (inr (answer db),
     World (fs w) (memdb w) (log w) (journal w ++ [Execute con query])).
Proof.
  intros Hdb. unfold Erd.con_execute_catalog, bind, record_event. cbn [fst snd].
  by rewrite database_of_journal, Hdb.
Qed.

(** On an existing database file the diagram is the rendering of what the
    catalog answers for that database. *)
Lemma erd_generate_existing
    (str_lower : string -> string)
    (information_schema_columns : database -> list (string * string * string))
    (foreign_key_rows : database -> list (string * string * string * string))
    database_path db w :
  database_path <> ":memory:" ->
  fs w !! database_path = Some (DuckDBFile db) ->
  exists w',
    Erd.generate_mermaid_erd str_lower information_schema_columns foreign_key_rows database_path w
    = (inr (String.concat newline
              (["erDiagram"]
                 ++ concat (erd_table_block str_lower (information_schema_columns db)
                              <$> first_seen
                                    ((fun row => row.1.1) <$> information_schema_columns db))
                 ++ (erd_relationship_line <$> foreign_key_rows db))),
       w').
Proof.
  intros Hmem Hfile. unfold Erd.generate_mermaid_erd, logger_info.
  rewrite (bind_inr _ _ _ _ _ (logger_run _ _ _)).
  erewrite bind_inr by (by apply (duckdb_connect_existing_read_only database_path db)).
  rewrite (bind_inr _ _ _ _ _ (logger_run _ _ _)).
  erewrite bind_inr
    by (apply (con_execute_catalog_run _ _ _ db); cbn [database_of fs]; by rewrite Hfile).
  rewrite (bind_inr _ _ _ _ _ (logger_run _ _ _)).
  erewrite bind_inr
    by (apply (con_execute_catalog_run _ _ _ db); cbn [database_of fs]; by rewrite Hfile).
  match goal with
  | |- context [generate_mermaid_erd ?lo ?tc ?fks ?w0] =>
      pose proof (generate_mermaid_erd_outcome lo tc fks w0) as Hout;
      unfold outcome in Hout;
      destruct (generate_mermaid_erd lo tc fks w0) as [r w']
  end.
  cbn [fst] in Hout. subst r. by exists w'.
Qed.

(** X12: the entry point of the Diagram Generator does nothing when the
    database file is not there: it logs one ERROR line and returns; it opens
    no connection, writes no file and prints nothing. *)
Theorem erd_main_without_database
    (str_lower : string -> string)
    (information_schema_columns : database -> list (string * string * string))
    (foreign_key_rows : database -> list (string * string * string * string))
    (w : world) (o : outputs) :
  fs w !! "data/sales.duckdb" = None ->
  text_files o !! "data/sales.duckdb" = None ->
  Erd.main str_lower information_schema_columns foreign_key_rows (w, o)
  = (inr tt,
     (World (fs w) (memdb w)
        (log w ++ [(ERROR, "DuckDB database file 'data/sales.duckdb' does not exist.")])
        (journal w),
      o)).
Proof.
  intros Hfs Htext. unfold Erd.main.
  erewrite xbind_inr; cycle 1.
  { unfold xpath_exists, Erd.DATABASE_PATH. cbn [fst snd]. rewrite Hfs, Htext.
    rewrite !bool_decide_eq_false_2 by (by intros [? ?]). reflexivity. }
  reflexivity.
Qed.

Lemma erd_main_without_database_witness :
  Erd.main ascii_lowercase (fun _ => []) (fun _ => []) (store_csv_world, Outputs ∅ [])
  = (inr tt,
     (World (fs store_csv_world) (memdb store_csv_world)
        (log store_csv_world
           ++ [(ERROR, "DuckDB database file 'data/sales.duckdb' does not exist.")])
        (journal store_csv_world),
      Outputs ∅ [])).
Proof.
  apply (erd_main_without_database ascii_lowercase (fun _ => []) (fun _ => []) store_csv_world
           (Outputs ∅ [])).
  - vm_compute. reflexivity.
  - vm_compute. reflexivity.
Defined.

(** X13: when the database file is there, the entry point saves and prints
    what [generate_mermaid_erd] returns: [er-diagram.mermaid] holds exactly
    the diagram text (replacing what it held), and the standard output gets
    the heading line followed by that same text.  The text is the rendering
    of the catalog's answers for the database. *)
Theorem erd_main_saves_and_prints_the_diagram
    (str_lower : string -> string)
    (information_schema_columns : database -> list (string * string * string))
    (foreign_key_rows : database -> list (string * string * string * string))
    (db : database) (w : world) (o : outputs) :
  fs w !! "data/sales.duckdb" = Some (DuckDBFile db) ->
  exists diagram w',
    Erd.main str_lower information_schema_columns foreign_key_rows (w, o)
    = (inr tt,
       (w',
        Outputs (<["er-diagram.mermaid" := diagram]> (text_files o))
          (stdout o ++ [newline +:+ "Generated Mermaid ERD:"; diagram])))
    /\ outcome (Erd.generate_mermaid_erd str_lower information_schema_columns foreign_key_rows
                  "data/sales.duckdb") w = inr diagram
    /\ diagram
       = String.concat newline
           (["erDiagram"]
              ++ concat (erd_table_block str_lower (information_schema_columns db)
                           <$> first_seen
                                 ((fun row => row.1.1) <$> information_schema_columns db))
              ++ (erd_relationship_line <$> foreign_key_rows db)).
Proof.
  intros Hfile.
  assert ("data/sales.duckdb" <> ":memory:") as Hmem by discriminate.
  destruct (erd_generate_existing str_lower information_schema_columns foreign_key_rows
              "data/sales.duckdb" db
              (World (fs w) (memdb w) (log w ++ [(INFO, "Generating Mermaid ERD...")])
                 (journal w)) Hmem Hfile) as (w1 & Hgen1).
  destruct (erd_generate_existing str_lower information_schema_columns foreign_key_rows
              "data/sales.duckdb" db w Hmem Hfile) as (w0 & Hgen0).
  eexists _, _. split; [|split; [|reflexivity]].
  - unfold Erd.main.
    erewrite xbind_inr; cycle 1.
    { unfold xpath_exists, Erd.DATABASE_PATH. cbn [fst snd]. rewrite Hfile.
      rewrite bool_decide_eq_true_2 by eauto. reflexivity. }
    cbn [negb orb]. unfold logger_info.
    erewrite xbind_inr by (apply lift_inr, logger_run).
    erewrite xbind_inr by (apply lift_inr; exact Hgen1).
    unfold xbind, write_text, lift, py_print, logger.
    cbn [fst snd text_files stdout]. rewrite <- app_assoc. reflexivity.
  - unfold outcome. by rewrite Hgen0.
Qed.

Lemma erd_main_saves_and_prints_the_diagram_witness :
  exists diagram w',
    Erd.main ascii_lowercase (fun _ => [("dim_product", "product_id", "INTEGER")]) (fun _ => [])
      (sales_world, Outputs ∅ [])
    = (inr tt,
       (w',
        Outputs (<["er-diagram.mermaid" := diagram]> (text_files (Outputs ∅ [])))
          (stdout (Outputs ∅ []) ++ [newline +:+ "Generated Mermaid ERD:"; diagram])))
    /\ outcome (Erd.generate_mermaid_erd ascii_lowercase
                  (fun _ => [("dim_product", "product_id", "INTEGER")]) (fun _ => [])
                  "data/sales.duckdb") sales_world = inr diagram
    /\ diagram
       = "erDiagram" +:+ newline
           +:+ "  dim_product {" +:+ newline
           +:+ "    integer product_id" +:+ newline
           +:+ "  }".
Proof.
  apply (erd_main_saves_and_prints_the_diagram ascii_lowercase
           (fun _ => [("dim_product", "product_id", "INTEGER")]) (fun _ => [])
           sales_database sales_world (Outputs ∅ [])).
  vm_compute. reflexivity.
Defined.

(** ** Schema Loader: the statements it sends *)

Lemma con_execute_journal con q w rows w' :
  con_execute con q w = (inr rows, w') ->
  journal w' = journal w ++ [Execute con (sql_text q)].
Proof.
  unfold con_execute, bind, record_event. cbn [fst snd].
  destruct (database_of con _) as [db|]; [|done].
  destruct (run_statement q _ db) as [e|[db' rows']]; [done|].
  intros [= _ <-]. by destruct con.
Qed.

Lemma load_step_journal con table_name csv_path w w' :
  load_step con tt (table_name, csv_path) w = (inr tt, w') ->
  journal w'
  = journal w
      ++ (if decide (is_Some (fs w !! csv_path))
          then [Execute con (sql_text (CreateTableAsReadCsvAuto table_name csv_path))]
          else []).
Proof.
  destruct (fs w !! csv_path) as [f|] eqn:Hcsv.
  - rewrite decide_True by eauto. unfold load_step.
    rewrite (bind_inr _ _ _ _ _ (path_exists_some _ _ _ Hcsv)). cbn [negb].
    unfold logger_info. rewrite (bind_inr _ _ _ _ _ (logger_run _ _ _)).
    unfold bind.
    match goal with
    | |- context [con_execute ?c ?q ?w0] =>
        pose proof (con_execute_journal c q w0) as Hj;
        destruct (con_execute c q w0) as [[e|rows] w1]
    end; [done|].
    intros [= <-]. cbn [journal]. by rewrite (Hj rows w1 eq_refl).
  - rewrite decide_False by (by intros [? ?]).
    rewrite load_step_missing by done. intros [= <-]. cbn [journal].
    by rewrite app_nil_r.
Qed.

Lemma filter_ext_Forall {A} (P Q : A -> Prop)
    `{forall x, Decision (P x)} `{forall x, Decision (Q x)} (l : list A) :
  Forall (fun x => P x <-> Q x) l -> filter P l = filter Q l.
Proof.
  induction 1 as [|x l Hx Hl IH]; [done|].
  rewrite !filter_cons, IH. destruct (decide (P x)), (decide (Q x)); tauto.
Qed.

(** A loop that returns has sent one [CREATE TABLE] per entry with a file,
    in the order of the entries. *)
Lemma load_loop_journal con xs w w' :
  for_in xs (load_step con) tt w = (inr tt, w') ->
  journal w'
  = journal w
      ++ ((fun item => Execute con (sql_text (CreateTableAsReadCsvAuto item.1 item.2)))
            <$> filter (fun item => is_Some (fs w !! item.2)) xs).
Proof.
  revert w. induction xs as [|[table_name csv_path] xs IH]; intros w.
  - intros [= <-]. cbn. by rewrite app_nil_r.
  - rewrite for_in_cons. unfold bind.
    pose proof (load_step_journal con table_name csv_path w) as Hstep.
    pose proof (load_step_present con tt (table_name, csv_path) w) as Hkeep.
    destruct (load_step con tt (table_name, csv_path) w) as [[e|[]] w1]; [done|].
    intros Hrest. rewrite (IH w1 Hrest), (Hstep w1 eq_refl), <- app_assoc. f_equal.
    cbn [snd] in Hkeep.
    rewrite (filter_ext_Forall (fun item => is_Some (fs w1 !! item.2))
               (fun item => is_Some (fs w !! item.2)) xs)
      by (apply Forall_forall; intros item _; apply Hkeep).
    rewrite filter_cons. cbn [fst snd].
    by destruct (decide (is_Some (fs w !! csv_path))).
Qed.

(** X14: on a path that holds no database yet, the engine sees exactly one
    connect (read-write) followed by one statement per entry whose file
    exists, in the order of the mapping: the text
    [CREATE TABLE <table> AS SELECT * FROM read_csv_auto('<path>')], with
    the table name and the path pasted in as they are.  Nothing is sent for
    an entry whose file is missing.  The mapping is one of plain table names
    and plain CSV paths, the database path [":memory:"] or a [.duckdb] file
    in the working directory. *)
Theorem loader_sends_one_create_table_per_csv_file
    (csv_files : dict string string) (force : bool) (database_path : string) (w : world) :
  plain_mapping csv_files ->
  database_path = ":memory:" \/ plain_database_path database_path ->
  PyDict.wf csv_files ->
  fs w !! database_path = None ->
  Forall (fun item =>
            item.2 <> database_path
            /\ (fs w !! item.2 = None
                \/ exists inferred, fs w !! item.2 = Some (CsvFile inferred)))
    (items csv_files) ->
  exists con w',
    load_csv_to_duckdb csv_files force database_path w = (inr con, w')
    /\ journal w'
       = journal w ++ Connect database_path false
           :: ((fun item =>
                  Execute con
                    ("CREATE TABLE " +:+ item.1 +:+ " AS SELECT * FROM read_csv_auto('"
                       +:+ item.2 +:+ "')"))
                 <$> filter (fun item => is_Some (fs w !! item.2)) (items csv_files)).
Proof.
  intros _ _ Hwf Hnone Hall.
  assert (exists con w', load_csv_to_duckdb csv_files force database_path w = (inr con, w'))
    as (con & w' & Hrun).
  { destruct (decide (database_path = ":memory:")) as [->|Hmem].
    - destruct (load_fresh_memory csv_files force w Hwf Hnone) as (w' & db' & Hrun & _).
      + eapply Forall_impl; [exact Hall|]. by intros item [_ ?].
      + by eexists _, _.
    - destruct (load_fresh_file csv_files force database_path w Hmem Hwf Hnone Hall)
        as (w' & db' & Hrun & _).
      by eexists _, _. }
  exists con, w'. split; [exact Hrun|].
  unfold load_csv_to_duckdb, logger_info in Hrun.
  rewrite (bind_inr _ _ _ _ _ (logger_run _ _ _)) in Hrun.
  erewrite bind_inr in Hrun by (apply path_exists_none; exact Hnone).
  change (false && negb force) with false in Hrun. cbv iota in Hrun.
  unfold bind at 1 in Hrun.
  match type of Hrun with
  | context [duckdb_connect database_path false ?w0] =>
      assert (exists con0 u,
                duckdb_connect database_path false w0 = (inr con0, u)
                /\ journal u = journal w ++ [Connect database_path false]
                /\ (forall p, p <> database_path -> fs u !! p = fs w !! p))
        as (con0 & u & Hcon & Hju & Hfu)
  end.
  { destruct (decide (database_path = ":memory:")) as [->|Hmem].
    - eexists _, _. split; [apply duckdb_connect_memory|]. by split.
    - eexists _, _. split; [by apply duckdb_connect_new|]. split; [done|].
      intros p Hp. cbn [fs]. by rewrite lookup_insert_ne. }
  rewrite Hcon in Hrun. unfold bind in Hrun.
  destruct (for_in (items csv_files) (load_step con0) tt u) as [[e|[]] u'] eqn:Hloop;
    [done|].
  injection Hrun as -> ->.
  rewrite (load_loop_journal _ _ _ _ Hloop), Hju, <- app_assoc. cbn [app].
  rewrite (filter_ext_Forall (fun item => is_Some (fs u !! item.2))
             (fun item => is_Some (fs w !! item.2)) (items csv_files)); [done|].
  eapply Forall_impl; [exact Hall|]. intros item [Hne _]. by rewrite Hfu.
Qed.

Lemma loader_sends_one_create_table_per_csv_file_witness :
  exists con w',
    load_csv_to_duckdb [("dim_time", "missing.csv"); ("dim_store", "data/dim_store.csv")]
      false "new.duckdb" store_csv_world = (inr con, w')
    /\ journal w'
       = journal store_csv_world ++ Connect "new.duckdb" false
           :: ((fun item =>
                  Execute con
                    ("CREATE TABLE " +:+ item.1 +:+ " AS SELECT * FROM read_csv_auto('"
                       +:+ item.2 +:+ "')"))
                 <$> filter (fun item => is_Some (fs store_csv_world !! item.2))
                       (items [("dim_time", "missing.csv");
                               ("dim_store", "data/dim_store.csv")])).
Proof.
  apply (loader_sends_one_create_table_per_csv_file
           [("dim_time", "missing.csv"); ("dim_store", "data/dim_store.csv")] false
           "new.duckdb" store_csv_world).
  - apply Forall_cons. split; [plain_entry ["missing"]|].
    apply Forall_cons. split; [plain_entry ["data"; "dim_store"]|constructor].
  - right. plain_path "new".
  - apply (bool_decide_unpack _). vm_compute. exact I.
  - vm_compute. reflexivity.
  - apply Forall_cons. split.
    { split; [discriminate|]. left. vm_compute. reflexivity. }
    apply Forall_cons. split; [|constructor].
    split; [discriminate|]. right. eexists. vm_compute. reflexivity.
Defined.

(** ** Schema Loader: a run that raises half-way *)

Lemma load_step_raises_existing path table_name csv_path db inferred columns w :
  fs w !! path = Some (DuckDBFile db) ->
  fs w !! csv_path = Some (CsvFile inferred) ->
  db !! table_name = Some columns ->
  exists msg w',
    load_step (FileCon path) tt (table_name, csv_path) w = (inl (CatalogException msg), w')
    /\ fs w' = fs w.
Proof.
  intros Hpath Hcsv Htable. unfold load_step.
  rewrite (bind_inr _ _ _ _ _ (path_exists_some _ _ _ Hcsv)). cbn [negb].
  unfold logger_info. rewrite (bind_inr _ _ _ _ _ (logger_run _ _ _)).
  eexists _, _. erewrite bind_inl; cycle 1.
  { unfold con_execute, bind, record_event. cbn [fst snd database_of fs].
    rewrite Hpath. cbn [run_statement]. rewrite Hcsv, Htable. reflexivity. }
  by split.
Qed.

(** X15: a run that raises is not rolled back.  With force requested on an
    existing database file, when an entry meets a table that is already
    there the run raises at that entry; the tables of the entries before it
    have been created and stay in the database, the existing tables are
    kept, and the entries after it are never processed.  The entries up to
    that one have plain table names and plain CSV paths, and the tables of
    the database have plain names. *)
Theorem loader_failure_keeps_earlier_tables
    (before after : dict string string) (table_name csv_path : string)
    (database_path : string) (db : database) (inferred columns : columns_t) (w : world) :
  plain_mapping (before ++ [(table_name, csv_path)]) ->
  plain_database db ->
  database_path <> ":memory:" ->
  fs w !! database_path = Some (DuckDBFile db) ->
  NoDup (keys before) ->
  Forall (fun item =>
            db !! item.1 = None
            /\ (fs w !! item.2 = None
                \/ exists inferred, fs w !! item.2 = Some (CsvFile inferred)))
    before ->
  table_name ∉ keys before ->
  db !! table_name = Some columns ->
  fs w !! csv_path = Some (CsvFile inferred) ->
  exists msg w' db',
    load_csv_to_duckdb (before ++ (table_name, csv_path) :: after) true database_path w
    = (inl (CatalogException msg), w')
    /\ fs w' !! database_path = Some (DuckDBFile db')
    /\ (forall table,
          db' !! table
          = match getitem before table with
            | Some path =>
                match fs w !! path with
                | Some (CsvFile inferred) => Some inferred
                | _ => None
                end
            | None => db !! table
            end).
Proof.
  intros _ _ Hmem Hfile Hnd Hall Hfresh Htable Hcsv.
  destruct (load_loop_creates (FileCon database_path) before db
              (World (fs w) (memdb w)
                 (log w ++ [(INFO, "Connecting to DuckDB database at '" +:+ database_path
                                     +:+ "'...")])
                 (journal w ++ [Connect database_path false])))
    as (w1 & db1 & Hrun1 & Hdb1 & Htables1 & Hfs1 & _);
    [cbn [database_of fs]; by rewrite Hfile | done | done |].
  cbn [fs database_of] in *.
  assert (fs w1 !! database_path = Some (DuckDBFile db1)) as Hpath1.
  { destruct (fs w1 !! database_path) as [[?|?]|]; try done. by injection Hdb1 as ->. }
  assert (fs w1 !! csv_path = Some (CsvFile inferred)) as Hcsv1.
  { rewrite Hfs1; [done|]. intros [= <-]. rewrite Hfile in Hcsv. discriminate Hcsv. }
  assert (db1 !! table_name = Some columns) as Htable1.
  { rewrite Htables1. unfold loaded_columns. by rewrite getitem_not_key. }
  destruct (load_step_raises_existing database_path table_name csv_path db1 inferred
              columns w1 Hpath1 Hcsv1 Htable1) as (msg & w2 & Hstep & Hfs2).
  exists msg, w2, db1. split; [|split].
  - unfold load_csv_to_duckdb, logger_info.
    rewrite (bind_inr _ _ _ _ _ (logger_run _ _ _)).
    erewrite bind_inr by (by eapply path_exists_some).
    cbn [negb andb].
    erewrite bind_inr by (by apply (duckdb_connect_existing database_path db)).
    unfold items. erewrite bind_inl; [done|].
    rewrite for_in_app, (bind_inr _ _ _ _ _ Hrun1), for_in_cons.
    by rewrite (bind_inl _ _ _ _ _ Hstep).
  - by rewrite Hfs2.
  - intros table. rewrite Htables1. unfold loaded_columns.
    destruct (getitem before table) as [path|] eqn:Hget; [|done].
    destruct (fs w !! path) as [[?|?]|] eqn:Hp; try done.
    + apply getitem_elem_of in Hget. rewrite Forall_forall in Hall.
      destruct (Hall _ Hget) as [Hnone _]. done.
    + apply getitem_elem_of in Hget. rewrite Forall_forall in Hall.
      destruct (Hall _ Hget) as [Hnone _]. done.
Qed.

Lemma loader_failure_keeps_earlier_tables_witness :
  exists msg w' db',
    load_csv_to_duckdb
      ([("dim_store", "data/dim_store.csv")]
         ++ ("fact_sales", "data/dim_store.csv") :: [("dim_time", "data/dim_store.csv")])
      true "data/sales.duckdb" sales_world
    = (inl (CatalogException msg), w')
    /\ fs w' !! "data/sales.duckdb" = Some (DuckDBFile db')
    /\ (forall table,
          db' !! table
          = match getitem [("dim_store", "data/dim_store.csv")] table with
            | Some path =>
                match fs sales_world !! path with
                | Some (CsvFile inferred) => Some inferred
                | _ => None
                end
            | None => sales_database !! table
            end).
Proof.
  apply (loader_failure_keeps_earlier_tables
           [("dim_store", "data/dim_store.csv")] [("dim_time", "data/dim_store.csv")]
           "fact_sales" "data/dim_store.csv" "data/sales.duckdb" sales_database
           [("store_id", "BIGINT"); ("city", "VARCHAR")]
           [("sale_id", "INTEGER"); ("product_id", "INTEGER"); ("amount", "DOUBLE")]
           sales_world).
  - apply Forall_cons. split; [plain_entry ["data"; "dim_store"]|].
    apply Forall_cons. split; [plain_entry ["data"; "dim_store"]|constructor].
  - apply (bool_decide_unpack _). vm_compute. exact I.
  - discriminate.
  - vm_compute. reflexivity.
  - apply (bool_decide_unpack _). vm_compute. exact I.
  - apply Forall_cons. split; [|constructor].
    split; [vm_compute; reflexivity|]. right. eexists. vm_compute. reflexivity.
  - apply (bool_decide_unpack _). vm_compute. exact I.
  - vm_compute. reflexivity.
  - vm_compute. reflexivity.
Defined.

(** ** Diagram Generator: nothing of the listing is lost *)

Lemma elem_of_concat_intro {A} (x : A) (ys : list A) (l : list (list A)) :
  ys ∈ l -> x ∈ ys -> x ∈ concat l.
Proof.
  induction l as [|zs l IH]; intros Hys Hx; [by apply elem_of_nil in Hys|].
  cbn [concat]. apply elem_of_app.
  apply elem_of_cons in Hys as [<-|Hys]; [by left | right; by apply IH].
Qed.

(** X16: every row of the column listing is in the diagram: the text
    contains the header line of the row's table and the row's own line (the
    lowercased type, a space, the column name, indented).  The lowercased
    type is what Python's [str.lower] makes of the type: for a type that is
    ASCII text, the type with [A] to [Z] replaced by [a] to [z]. *)
Theorem mermaid_erd_renders_every_column (str_lower : string -> string)
    (table_columns : list (string * string * string))
    (foreign_keys : list (string * string * string * string))
    (table column data_type : string) (w : world) :
  lowers_ascii str_lower ->
  (table, column, data_type) ∈ table_columns ->
  exists diagram,
    outcome (generate_mermaid_erd str_lower table_columns foreign_keys) w = inr diagram
    /\ contains ("  " +:+ table +:+ " {") diagram
    /\ contains ("    " +:+ str_lower data_type +:+ " " +:+ column) diagram
    /\ (is_ascii data_type = true ->
        contains ("    " +:+ ascii_lowercase data_type +:+ " " +:+ column) diagram).
Proof.
  intros Hlower Hin. rewrite generate_mermaid_erd_outcome. eexists. split; [reflexivity|].
  assert (erd_table_block str_lower table_columns table
            ∈ erd_table_block str_lower table_columns
                <$> first_seen ((fun row => row.1.1) <$> table_columns)) as Hblock.
  { apply list_elem_of_fmap_2, elem_of_first_seen.
    by apply (list_elem_of_fmap_2 (fun row : string * string * string => row.1.1)) in Hin. }
  assert (forall line,
            line ∈ erd_table_block str_lower table_columns table ->
            contains line
              (String.concat newline
                 (["erDiagram"]
                    ++ concat (erd_table_block str_lower table_columns
                                 <$> first_seen ((fun row => row.1.1) <$> table_columns))
                    ++ (erd_relationship_line <$> foreign_keys)))) as Hline.
  { intros line Hl. apply contains_concat. rewrite !elem_of_app. right. left.
    by apply (elem_of_concat_intro _ (erd_table_block str_lower table_columns table)). }
  assert (("    " +:+ str_lower data_type +:+ " " +:+ column)
            ∈ erd_table_block str_lower table_columns table) as Hrow.
  { unfold erd_table_block. apply elem_of_app. right. apply elem_of_app. left.
    apply (list_elem_of_fmap_2
             (fun row : string * string * string =>
                "    " +:+ str_lower row.2 +:+ " " +:+ row.1.2)
             _ (table, column, data_type)).
    by apply list_elem_of_filter. }
  split; [|split].
  - apply Hline. unfold erd_table_block. apply elem_of_app. left. by left.
  - by apply Hline.
  - intros Hascii. rewrite <- (Hlower _ Hascii). by apply Hline.
Qed.

Lemma mermaid_erd_renders_every_column_witness :
  lowers_ascii ascii_lowercase
  /\ exists diagram,
       outcome (generate_mermaid_erd ascii_lowercase
                  [("fact_sales", "sale_id", "INTEGER"); ("dim_product", "name", "VARCHAR");
                   ("fact_sales", "amount", "DOUBLE")] [])
         fresh_world = inr diagram
       /\ contains "  fact_sales {" diagram
       /\ contains "    double amount" diagram
       /\ (is_ascii "DOUBLE" = true -> contains "    double amount" diagram).
Proof.
  assert (lowers_ascii ascii_lowercase) as Hlower by (by intros s _).
  split; [exact Hlower|].
  apply (mermaid_erd_renders_every_column ascii_lowercase
           [("fact_sales", "sale_id", "INTEGER"); ("dim_product", "name", "VARCHAR");
            ("fact_sales", "amount", "DOUBLE")] [] "fact_sales" "amount" "DOUBLE" fresh_world
           Hlower).
  apply elem_of_cons. right. apply elem_of_cons. right. apply elem_of_cons. by left.
Defined.
